(** * crawler/upload/helper.py: a shallow embedding and its properties

    The module has one mapper ([transform]) and three extractors
    ([pmid_to_funding], [pmid_to_citation], [pmid_with_eutils]).  The
    embedding follows the Python text line by line.  Network access, the
    XPath selection over HTML and the XML parser are library calls: the
    embedded functions start from what those calls hand back (the selected
    sections, the parsed tree). *)

From Stdlib Require Import List Bool Arith Lia.
From Stdlib Require Import Ascii String.
From Stdlib Require Import Sorting.Sorted Sorting.Permutation Sorting.Mergesort.
From Stdlib Require Import Structures.Orders Structures.OrderedTypeEx.
Import ListNotations.

Local Open Scope string_scope.
Local Open Scope list_scope.

(** ** Python values and exceptions *)

#[local] Set Warnings "-register-all".

(** The values the module builds and returns: [None], [str], and [dict]
    with string keys (insertion ordered, as a list of items). *)
Inductive pyval : Type :=
| PNone
| PStr (s : string)
| PList (l : list pyval)
| PDict (items : list (string * pyval)).

(** The exceptions raised on the paths that are embedded.  [OtherError]
    stands for whatever a user-supplied callable raises. *)
Inductive exn : Type :=
| RuntimeError
| UnboundLocalError (name : string)
| AttributeError (msg : string)
| AssertionError
| ParseError
| OtherError (msg : string).

Inductive result (A : Type) : Type :=
| Ok (a : A)
| Raise (e : exn).
Arguments Ok {A} a.
Arguments Raise {A} e.

Definition bind {A B} (r : result A) (k : A -> result B) : result B :=
  match r with
  | Ok a => k a
  | Raise e => Raise e
  end.

Notation "x <- r ;; k" := (bind r (fun x => k))
  (at level 61, r at next level, right associativity).

(** ** Python [str] operations

    A character is a code point below 256, held in an [ascii].  Its case
    is the one Python gives it: uppercase are A-Z, U+00C0-U+00D6 and
    U+00D8-U+00DE; lowercase are a-z, U+00AA, U+00B5, U+00BA,
    U+00DF-U+00F6 and U+00F8-U+00FF; no code point below 256 is
    titlecase. *)
Module PyStr.

(** [c.isupper()] for one character. *)
Definition is_upper_char (c : ascii) : bool :=
  let n := nat_of_ascii c in
  (((65 <=? n) && (n <=? 90))
   || ((192 <=? n) && (n <=? 214))
   || ((216 <=? n) && (n <=? 222)))%nat.

(** [c.islower()] for one character. *)
Definition is_lower_char (c : ascii) : bool :=
  let n := nat_of_ascii c in
  (((97 <=? n) && (n <=? 122))
   || (n =? 170) || (n =? 181) || (n =? 186)
   || ((223 <=? n) && (n <=? 246))
   || ((248 <=? n) && (n <=? 255)))%nat.

(** [s.isupper()]: no lowercase character and at least one uppercase one. *)
Definition isupper (s : string) : bool :=
  let cs := list_ascii_of_string s in
  forallb (fun c => negb (is_lower_char c)) cs && existsb is_upper_char cs.

(** Cut a character list at the first [sep]: what is before it, what is
    after it. *)
Fixpoint break (sep : ascii) (cs : list ascii) : option (list ascii * list ascii) :=
  match cs with
  | [] => None
  | c :: tl =>
      if Ascii.eqb c sep then Some ([], tl)
      else match break sep tl with
           | Some (a, b) => Some (c :: a, b)
           | None => None
           end
  end.

(** The scan of [rsplit], on the reversed string: the parts from the right
    end, rightmost first, each one in reading order. *)
Fixpoint rsplit_rev (sep : ascii) (maxsplit : nat) (r : list ascii)
  : list (list ascii) :=
  match maxsplit with
  | O => [rev r]
  | S n =>
      match break sep r with
      | None => [rev r]
      | Some (a, b) => rev a :: rsplit_rev sep n b
      end
  end.

(** [s.rsplit(sep, maxsplit)] for a one-character separator. *)
Definition rsplit (s : string) (sep : ascii) (maxsplit : nat) : list string :=
  map string_of_list_ascii
      (rev (rsplit_rev sep maxsplit (rev (list_ascii_of_string s)))).

(** [s[:-n]] for [n > 0]: all but the last [n] characters, empty when the
    string is shorter. *)
Definition drop_last (n : nat) (s : string) : string :=
  substring 0 (String.length s - n) s.

(** [needle in hay]. *)
Fixpoint contains (needle hay : string) : bool :=
  prefix needle hay ||
  match hay with
  | EmptyString => false
  | String _ tl => contains needle tl
  end.

(** [sep.join(parts)]. *)
Definition join (sep : string) (parts : list string) : string :=
  String.concat sep parts.

End PyStr.

(** Truth value of an object in [if x:]: [None], the empty string and the
    empty containers are false. *)
Definition truthy (v : pyval) : bool :=
  match v with
  | PNone => false
  | PStr s => negb (String.eqb s "")
  | PList l => negb (Nat.eqb (List.length l) 0)
  | PDict items => negb (Nat.eqb (List.length items) 0)
  end.

(** ** [pmid_to_funding] *)

(** One selected [h4] heading: its markup ([section.get()]) and the link
    texts of the first [ul] that follows it
    ([section.xpath('following-sibling::ul[1]//a/text()').getall()]). *)
Record section := {
  get : string;
  following_links : list string
}.

(** First loop: [grants] is overwritten at every heading whose markup
    contains "Grant support". *)
Fixpoint select_grants (grants : list string) (sections : list section)
  : list string :=
  match sections with
  | [] => grants
  | s :: rest =>
      if PyStr.contains "Grant support" (get s)
      then select_grants (following_links s) rest
      else select_grants grants rest
  end.

(** The two locals of the second loop that outlive an iteration; [None]
    is an unbound name.  [identifier], once bound, holds [None] or a
    [str]. *)
Record locals := {
  organization : option string;
  identifier : option pyval
}.

Definition unbound : locals :=
  {| organization := None; identifier := None |}.

(** [segments = grant.rsplit('/', 2); segments = segments[:-1]] *)
Definition segments_of (grant : string) : list string :=
  removelast (PyStr.rsplit grant "/" 2).

(** The test [c_1 and c_2 and c_3] on [subsegments]. *)
Definition has_abbreviation (subsegments : list string) : bool :=
  let c_1 := Nat.eqb (List.length subsegments) 2 in
  let c_2 := Nat.eqb (String.length (last subsegments "")) 2 in
  let c_3 := PyStr.isupper (last subsegments "") in
  c_1 && c_2 && c_3.

(** The [if len(segments) == 1 ... elif len(segments) == 2 ...] block.
    [segments[-1]], [segments[0]] and [subsegments[-1]] are read where the
    lists are not empty. *)
Definition assign (st : locals) (grant : string) : locals :=
  let segments := segments_of grant in
  if Nat.eqb (List.length segments) 1 then
    {| organization := Some (last segments "");
       identifier := Some PNone |}
  else if Nat.eqb (List.length segments) 2 then
    let subsegments := PyStr.rsplit (hd "" segments) "/" 1 in
    {| organization := Some (last segments "");
       identifier :=
         Some (PStr (if has_abbreviation subsegments
                     then PyStr.drop_last 3 (hd "" segments)
                     else hd "" segments)) |}
  else st.

Definition read_organization (st : locals) : result string :=
  match organization st with
  | Some o => Ok o
  | None => Raise (UnboundLocalError "organization")
  end.

Definition read_identifier (st : locals) : result pyval :=
  match identifier st with
  | Some i => Ok i
  | None => Raise (UnboundLocalError "identifier")
  end.

(** The dict built at the end of an iteration. *)
Definition funding_entry (org : string) (i : pyval) : pyval :=
  let _doc := [("funder", PDict [("@type", PStr "Organization");
                                 ("name", PStr org)])] in
  if truthy i then PDict (_doc ++ [("identifier", i)]) else PDict _doc.

(** One iteration of [for grant in grants]. *)
Definition funding_step (st : locals) (grant : string)
  : result (locals * pyval) :=
  let st' := assign st grant in
  org <- read_organization st' ;;
  i <- read_identifier st' ;;
  Ok (st', funding_entry org i).

Fixpoint funding_loop (st : locals) (funding : list pyval)
         (grants : list string) : result (list pyval) :=
  match grants with
  | [] => Ok funding
  | grant :: rest =>
      r <- funding_step st grant ;;
      funding_loop (fst r) (funding ++ [snd r]) rest
  end.

Definition pmid_to_funding (sections : list section) : result (list pyval) :=
  funding_loop unbound [] (select_grants [] sections).

(** *** Vocabulary for the properties of [pmid_to_funding] *)

Definition funder_item (org : string) : string * pyval :=
  ("funder", PDict [("@type", PStr "Organization"); ("name", PStr org)]).

(** The identifier rule of the specification, in its own words: re-split
    the first segment once from the right; with two parts, the last of
    which has exactly two characters, all of them uppercase letters, the
    last three characters go. *)
Definition spec_identifier (first_segment : string) : string :=
  let parts := PyStr.rsplit first_segment "/" 1 in
  let last_part := last parts "" in
  if Nat.eqb (List.length parts) 2
     && Nat.eqb (String.length last_part) 2
     && forallb PyStr.is_upper_char (list_ascii_of_string last_part)
  then PyStr.drop_last 3 first_segment
  else first_segment.

Definition grant_support (links : list string) : section :=
  {| get := "<h4>Grant support</h4>"; following_links := links |}.

(** The identifier of a grant string as the specification states it: for
    a grant string with two segments left, the rule of step 5 on the
    first of them. *)
Definition identifier_by_spec_rule (grant : string) : Prop :=
  forall first org,
    segments_of grant = [first; org] ->
    pmid_to_funding [grant_support [grant]] =
    Ok [funding_entry org (PStr (spec_identifier first))].

(** What [identifier] can hold. *)
Definition identifier_ok (st : locals) : Prop :=
  match identifier st with
  | None | Some PNone | Some (PStr _) => True
  | _ => False
  end.

(** What an entry of the result looks like. *)
Definition entry_shape (e : pyval) : Prop :=
  exists org,
    e = PDict [funder_item org] \/
    exists s, s <> "" /\ e = PDict [funder_item org; ("identifier", PStr s)].

(** ** Python [dict] with string keys

    Items in insertion order; a key occurs once. *)
Module PyDict.
Section Dict.
Context {V : Type}.

Definition t := list (string * V).

Definition keys (d : t) : list string := map fst d.

(** [d.get(k)] / [k in d] *)
Fixpoint get (d : t) (k : string) : option V :=
  match d with
  | [] => None
  | (k', v) :: tl => if String.eqb k' k then Some v else get tl k
  end.

(** [d[k] = v]: the value is replaced where the key stands, a new key
    goes to the end. *)
Fixpoint set (d : t) (k : string) (v : V) : t :=
  match d with
  | [] => [(k, v)]
  | (k', v') :: tl =>
      if String.eqb k' k then (k', v) :: tl else (k', v') :: set tl k v
  end.

(** [d.update(m)] *)
Definition update (d m : t) : t :=
  fold_left (fun acc kv => set acc (fst kv) (snd kv)) m d.
End Dict.
Arguments t V : clear implicits.
End PyDict.

(** ** [transform] *)

(** What [mappings[key]] can be: a [str], a callable, anything else.  A
    callable is applied to the value and hands back the mapping that
    [_doc.update] merges; whatever it raises (or [update] raises on what it
    returned) ends the call. *)
Inductive mapping_entry : Type :=
| MStr (name : string)
| MCallable (f : pyval -> result (PyDict.t pyval))
| MOther.

Definition initial_doc : PyDict.t pyval :=
  [("@context", PStr "http://schema.org/"); ("@type", PStr "Dataset")].

(** The body of [for key, value in doc.items()]. *)
Definition transform_step (mappings : PyDict.t mapping_entry)
           (_doc : PyDict.t pyval) (item : string * pyval)
  : result (PyDict.t pyval) :=
  let (key, value) := item in
  match PyDict.get mappings key with
  | None => Ok _doc
  | Some (MStr name) => Ok (PyDict.set _doc name value)
  | Some (MCallable f) => m <- f value ;; Ok (PyDict.update _doc m)
  | Some MOther => Raise RuntimeError
  end.

Fixpoint transform_loop (mappings : PyDict.t mapping_entry)
         (_doc : PyDict.t pyval) (items : list (string * pyval))
  : result (PyDict.t pyval) :=
  match items with
  | [] => Ok _doc
  | item :: rest =>
      _doc' <- transform_step mappings _doc item ;;
      transform_loop mappings _doc' rest
  end.

(** [sorted(_doc.items())]: the items are [(key, value)] tuples, and the
    keys of a dict differ pairwise, so the order of two items is the order
    of their keys, which [str] compares character by character. *)
Module ItemOrder <: TotalLeBool.
Definition t := (string * pyval)%type.
Definition leb (x y : t) : bool := String.leb (fst x) (fst y).
Theorem leb_total : forall a1 a2, leb a1 a2 = true \/ leb a2 a1 = true.
Proof. intros a1 a2. apply String.leb_total. Qed.
End ItemOrder.

Module ItemSort := Sort ItemOrder.

Definition sorted (items : list (string * pyval)) : list (string * pyval) :=
  ItemSort.sort items.

Definition transform (doc : PyDict.t pyval) (mappings : PyDict.t mapping_entry)
  : result (PyDict.t pyval) :=
  _doc <- transform_loop mappings initial_doc doc ;;
  Ok (sorted _doc).

(** *** Vocabulary for the properties of [transform] *)

(** [a < b] on [str]. *)
Definition key_lt (a b : string) : Prop := String.ltb a b = true.

(** What one item of the record writes into [_doc]: nothing for a key the
    table does not have, the renamed item for a string entry, the returned
    mapping for a callable entry. *)
Definition written (mappings : PyDict.t mapping_entry) (item : string * pyval)
  : result (PyDict.t pyval) :=
  match PyDict.get mappings (fst item) with
  | None => Ok []
  | Some (MStr name) => Ok [(name, snd item)]
  | Some (MCallable f) => f (snd item)
  | Some MOther => Raise RuntimeError
  end.

Definition recognized (mappings : PyDict.t mapping_entry) (item : string * pyval)
  : bool :=
  match PyDict.get mappings (fst item) with
  | Some _ => true
  | None => false
  end.

(** The output as the specification states it: both constants with their
    values, and beside them one entry for each recognized key of the
    record. *)
Definition constants_plus_one_per_recognized
           (doc : PyDict.t pyval) (mappings : PyDict.t mapping_entry)
           (out : PyDict.t pyval) : Prop :=
  PyDict.get out "@context" = Some (PStr "http://schema.org/") /\
  PyDict.get out "@type" = Some (PStr "Dataset") /\
  List.length out = 2 + List.length (filter (recognized mappings) doc).

(** ** [pmid_with_eutils] *)

(** An [xml.etree.ElementTree.Element]: tag, [.text] ([None] when there is
    no text before the first child) and the child elements. *)
Inductive element : Type :=
| Element (tag : string) (text : option string) (children : list element).

Definition tag (e : element) : string :=
  match e with Element t _ _ => t end.
Definition text (e : element) : option string :=
  match e with Element _ t _ => t end.
Definition children (e : element) : list element :=
  match e with Element _ _ cs => cs end.

(** [bool(element)] is [len(element) != 0]: an element without child
    elements is false. *)
Definition element_truthy (e : element) : bool :=
  negb (Nat.eqb (List.length (children e)) 0).

(** All elements below [e], in document order, [e] left out. *)
Fixpoint below (e : element) : list element :=
  match e with
  | Element _ _ cs => flat_map (fun c => c :: below c) cs
  end.

(** [e.findall('.//name')] *)
Definition findall_descendants (e : element) (name : string) : list element :=
  filter (fun d => String.eqb (tag d) name) (below e).

(** [e.findall('name')] *)
Definition findall_children (e : element) (name : string) : list element :=
  filter (fun c => String.eqb (tag c) name) (children e).

(** [e.find('name')]: the first child with that tag, or [None]. *)
Definition find (e : element) (name : string) : option element :=
  match findall_children e name with
  | [] => None
  | c :: _ => Some c
  end.

(** A path [.//d/s1/.../sn]. *)
Record path := {
  descendant : string;
  steps : list string
}.

Definition findall_path (e : element) (p : path) : list element :=
  fold_left (fun found name => flat_map (fun x => findall_children x name) found)
            (steps p) (findall_descendants e (descendant p)).

Definition find_path (e : element) (p : path) : option element :=
  match findall_path e p with
  | [] => None
  | x :: _ => Some x
  end.

Definition no_text_attribute : exn :=
  AttributeError "'NoneType' object has no attribute 'text'".

(** [x.text] where [x] is what [find] returned: [None] has no [text]. *)
Definition text_of_found (x : option element) : result (option string) :=
  match x with
  | Some e => Ok (text e)
  | None => Raise no_text_attribute
  end.

(** A [.text] as a value, and as [format] prints it. *)
Definition text_value (t : option string) : pyval :=
  match t with
  | Some s => PStr s
  | None => PNone
  end.

Definition format_text (t : option string) : string :=
  match t with
  | Some s => s
  | None => "None"
  end.

(** The dict built for one [Grant] element. *)
Definition grant_dict (grant_element : element) : PyDict.t pyval :=
  let grant := [] in
  let grant :=
    match find grant_element "Agency" with
    | Some agency =>
        PyDict.set grant "funder"
          (PDict [("@type", PStr "Organization");
                  ("name", text_value (text agency))])
    | None => grant
    end in
  match find grant_element "GrantID" with
  | Some grantid => PyDict.set grant "identifier" (text_value (text grantid))
  | None => grant
  end.

Fixpoint grants_loop (grants : list pyval) (elements : list element)
  : list pyval :=
  match elements with
  | [] => grants
  | grant_element :: rest =>
      let grant := PDict (grant_dict grant_element) in
      if truthy grant
      then grants_loop (grants ++ [grant]) rest
      else grants_loop grants rest
  end.

(** The body of [for author in root.findall('.//Author')]: the string
    that is appended to [authors]. *)
Definition author_name (author : element) : result string :=
  lastname <- text_of_found (find author "LastName") ;;
  initials <- text_of_found (find author "Initials") ;;
  Ok (format_text lastname ++ " " ++ format_text initials)%string.

Fixpoint authors_loop (authors : list string) (elements : list element)
  : result (list string) :=
  match elements with
  | [] => Ok authors
  | author :: rest =>
      name <- author_name author ;;
      authors_loop (authors ++ [name]) rest
  end.

(** The [if len(authors) > 4 ... elif ... elif ...] block: what is added
    to the empty [citation]. *)
Definition author_string (authors : list string) : string :=
  if Nat.ltb 4 (List.length authors) then
    (PyStr.join ", " (firstn 4 authors) ++ " et al. ")%string
  else if Nat.ltb 1 (List.length authors) then
    (PyStr.join ", " authors ++ ". ")%string
  else if Nat.eqb (List.length authors) 1 then
    (hd "" authors ++ ". ")%string
  else "".

(** A template with one [{}]: the text before it and the text after it. *)
Definition features : list (path * (string * string)) :=
  let medline d s := {| descendant := d; steps := s |} in
  [ (medline "MedlineCitation" ["Article"; "ArticleTitle"], ("", " "));
    (medline "MedlineCitation" ["MedlineJournalInfo"; "MedlineTA"], ("", " "));
    (medline "MedlineCitation"
       ["Article"; "Journal"; "JournalIssue"; "PubDate"; "Year"], ("", " "));
    (medline "MedlineCitation"
       ["Article"; "Journal"; "JournalIssue"; "PubDate"; "Month"], ("", ";"));
    (medline "MedlineCitation"
       ["Article"; "Journal"; "JournalIssue"; "Volume"], ("", ""));
    (medline "MedlineCitation"
       ["Article"; "Journal"; "JournalIssue"; "Issue"], ("(", ")"));
    (medline "MedlineCitation" ["Article"; "Pagination"; "MedlinePgn"],
     (":", "")) ].

Definition features_loop (root : element) (citation : string) : string :=
  fold_left
    (fun citation ft =>
       match find_path root (fst ft) with
       | Some x =>
           (citation ++ fst (snd ft) ++ format_text (text x)
              ++ snd (snd ft))%string
       | None => citation
       end)
    features citation.

(** The function from [root = ET.fromstring(body)] on.  [fromstring] is
    the parser: [None] when it raises its [ParseError]. *)
Definition pmid_with_eutils (fromstring : string -> option element)
           (body : string) : result (list pyval * string) :=
  match fromstring body with
  | None => Raise ParseError
  | Some root =>
      if negb (element_truthy root) then Raise AssertionError
      else
        let grants := grants_loop [] (findall_descendants root "Grant") in
        let citation := "" in
        authors <- authors_loop [] (findall_descendants root "Author") ;;
        let citation := (citation ++ author_string authors)%string in
        let citation := features_loop root citation in
        Ok (grants, citation)
  end.

(** *** Vocabulary and sample documents for [pmid_with_eutils] *)

(** The entry of one [Grant] element as the specification words it:
    "funder" with the text of the [Agency] child when there is one,
    "identifier" with the text of the [GrantID] child when there is one. *)
Definition spec_grant_entry (g : element) : PyDict.t pyval :=
  match find g "Agency" with
  | Some agency =>
      [("funder", PDict [("@type", PStr "Organization");
                         ("name", text_value (text agency))])]
  | None => []
  end ++
  match find g "GrantID" with
  | Some grantid => [("identifier", text_value (text grantid))]
  | None => []
  end.

(** A [Grant] element with at least one of the two children. *)
Definition has_field (g : element) : bool :=
  match find g "Agency", find g "GrantID" with
  | None, None => false
  | _, _ => true
  end.

(** The specification's sentence on the response body, read as stated: a
    body the parser rejects, or a parsed root without children, ends the
    call with the parser's [ParseError]. *)
Definition rejected_or_empty_is_ParseError
           (fromstring : string -> option element) (body : string) : Prop :=
  (fromstring body = None \/
   exists root, fromstring body = Some root /\ children root = []) ->
  pmid_with_eutils fromstring body = Raise ParseError.

Definition author_element (lastname initials : string) : element :=
  Element "Author" None
    [Element "LastName" (Some lastname) [];
     Element "ForeName" (Some initials) [];
     Element "Initials" (Some initials) []].

Definition six_authors : element :=
  Element "PubmedArticleSet" None
    [Element "AuthorList" None
       [author_element "A" "X"; author_element "B" "Y";
        author_element "C" "Z"; author_element "D" "W";
        author_element "E" "V"; author_element "F" "U"]].

Definition two_grants : element :=
  Element "PubmedArticleSet" None
    [Element "GrantList" None
       [Element "Grant" None
          [Element "GrantID" (Some "R01 DK090554") [];
           Element "Acronym" (Some "DK") [];
           Element "Agency" (Some "NIDDK NIH HHS") []];
        Element "Grant" None [Element "Country" (Some "United States") []];
        Element "Grant" None [Element "Agency" (Some "Wellcome Trust") []]]].

(** ** [pmid_to_citation] *)

(** The no-break space, [u'\xa0']. *)
Definition nbsp : ascii := ascii_of_nat 160.

(** [s.replace(old, new)] for a one-character [old] and [new]. *)
Fixpoint replace_char (old new : ascii) (s : string) : string :=
  match s with
  | EmptyString => EmptyString
  | String c tl =>
      String (if Ascii.eqb c old then new else c) (replace_char old new tl)
  end.

(** The function from [citation = Selector(text=body).xpath('string(/)').get()]
    on: the flattened text of the page with its no-break spaces replaced. *)
Definition pmid_to_citation (citation : string) : string :=
  replace_char nbsp " "%char citation.

(** *** Further vocabulary *)

(** The grant string has a '/'. *)
Definition has_slash (grant : string) : Prop :=
  In "/"%char (list_ascii_of_string grant).

(** An [Author] element with both children the author loop reads. *)
Definition has_names (author : element) : bool :=
  match find author "LastName", find author "Initials" with
  | Some _, Some _ => true
  | _, _ => false
  end.

(** The order of two items of a dict: the order of their keys. *)
Definition item_lt (x y : string * pyval) : Prop := key_lt (fst x) (fst y).

Definition nested_grant : element :=
  Element "PubmedArticleSet" None
    [Element "Grant" None
       [Element "Agency" (Some "NIH") [];
        Element "Grant" None [Element "GrantID" (Some "R01") []]]].

(** An element below another one: a child, or below a child. *)
Inductive descendant_of : element -> element -> Prop :=
| descendant_child d e :
    In d (children e) -> descendant_of d e
| descendant_below d c e :
    In c (children e) -> descendant_of d c -> descendant_of d e.

(** Induction over a tree with the hypothesis on all the children. *)
Fixpoint element_tree_ind (P : element -> Prop)
         (step : forall t x cs, Forall P cs -> P (Element t x cs))
         (e : element) : P e :=
  match e with
  | Element t x cs =>
      step t x cs
           ((fix all (l : list element) : Forall P l :=
               match l with
               | [] => Forall_nil P
               | c :: l' =>
                   Forall_cons c (element_tree_ind P step c) (all l')
               end) cs)
  end.

(** * Properties *)

(** ** Strings *)

Lemma break_absent (sep : ascii) (cs : list ascii) :
  ~ In sep cs -> PyStr.break sep cs = None.
Proof.
  induction cs as [|c tl IH]; intros Hnot; simpl.
  - reflexivity.
  - destruct (Ascii.eqb c sep) eqn:E.
    + apply Ascii.eqb_eq in E. subst c. exfalso. apply Hnot. now left.
    + rewrite IH; [reflexivity|]. intros Hin. apply Hnot. now right.
Qed.

(** Without a separator [rsplit] gives the string back as its one part. *)
Lemma rsplit_absent (s : string) (sep : ascii) (maxsplit : nat) :
  ~ In sep (list_ascii_of_string s) -> PyStr.rsplit s sep maxsplit = [s].
Proof.
  intros Hnot. unfold PyStr.rsplit.
  assert (Hrev : ~ In sep (rev (list_ascii_of_string s))).
  { intros Hin. apply Hnot. now apply in_rev. }
  destruct maxsplit as [|n]; simpl.
  - now rewrite rev_involutive, string_of_list_ascii_of_string.
  - rewrite (break_absent _ _ Hrev). simpl.
    now rewrite rev_involutive, string_of_list_ascii_of_string.
Qed.

(** ** [pmid_to_funding] *)

(** No heading with "Grant support": nothing is selected, nothing is
    parsed, the result is the empty list. *)
Lemma select_grants_none (sections : list section) (grants : list string) :
  (forall s, In s sections -> PyStr.contains "Grant support" (get s) = false) ->
  select_grants grants sections = grants.
Proof.
  revert grants.
  induction sections as [|s rest IH]; intros grants Hnone; simpl.
  - reflexivity.
  - rewrite (Hnone s (or_introl eq_refl)).
    apply IH. intros s' Hin. apply Hnone. now right.
Qed.

Lemma pmid_to_funding_no_heading (sections : list section) :
  (forall s, In s sections -> PyStr.contains "Grant support" (get s) = false) ->
  pmid_to_funding sections = Ok [].
Proof.
  intros Hnone. unfold pmid_to_funding.
  now rewrite (select_grants_none _ _ Hnone).
Qed.

(** A grant string without '/' leaves the locals as they were. *)
Lemma assign_without_slash (st : locals) (grant : string) :
  ~ In "/"%char (list_ascii_of_string grant) -> assign st grant = st.
Proof.
  intros Hnot. unfold assign, segments_of.
  now rewrite (rsplit_absent _ _ 2 Hnot).
Qed.

Lemma assign_identifier_ok (st : locals) (grant : string) :
  identifier_ok st -> identifier_ok (assign st grant).
Proof.
  intros Hok. unfold assign.
  destruct (Nat.eqb (List.length (segments_of grant)) 1); [exact I|].
  destruct (Nat.eqb (List.length (segments_of grant)) 2); [exact I|].
  exact Hok.
Qed.

Lemma funding_step_shape (st st' : locals) (grant : string) (e : pyval) :
  identifier_ok st ->
  funding_step st grant = Ok (st', e) ->
  identifier_ok st' /\ entry_shape e.
Proof.
  intros Hok Hstep. unfold funding_step in Hstep.
  pose proof (assign_identifier_ok st grant Hok) as Hok'.
  unfold read_organization, read_identifier, identifier_ok in *.
  destruct (organization (assign st grant)) as [org|]; simpl in Hstep;
    [|discriminate].
  destruct (identifier (assign st grant)) as [i|] eqn:Ei; simpl in Hstep;
    [|discriminate].
  injection Hstep as <- <-. rewrite Ei. split; [exact Hok'|].
  exists org. unfold funding_entry.
  destruct i as [|s|l|d]; simpl; try contradiction.
  - now left.
  - destruct (String.eqb_spec s ""); simpl.
    + now left.
    + right. exists s. now split.
Qed.

Lemma funding_loop_shape (grants : list string) :
  forall st funding out,
    identifier_ok st ->
    Forall entry_shape funding ->
    funding_loop st funding grants = Ok out ->
    Forall entry_shape out.
Proof.
  induction grants as [|grant rest IH]; intros st funding out Hok Hall Hrun;
    simpl in Hrun.
  - now injection Hrun as <-.
  - destruct (funding_step st grant) as [[st' e]|x] eqn:Estep; simpl in Hrun;
      [|discriminate].
    destruct (funding_step_shape _ _ _ _ Hok Estep) as [Hok' He].
    eapply IH; [exact Hok'| |exact Hrun].
    apply Forall_app. split; [exact Hall|]. now constructor.
Qed.

(** C9: a grant string without any '/' leaves no segment after the country
    is dropped, so neither branch assigns [organization] or [identifier]:
    as the first grant string the call fails on the unbound name, after
    another grant string the entry of that one is appended once more. *)
Theorem grant_without_slash (grant : string)
        (Hnot : ~ In "/"%char (list_ascii_of_string grant)) :
  segments_of grant = [] /\
  (forall st, assign st grant = st) /\
  (forall rest,
      funding_loop unbound [] (grant :: rest) =
      Raise (UnboundLocalError "organization")) /\
  (forall st previous st' e,
      funding_step st previous = Ok (st', e) ->
      funding_step st' grant = Ok (st', e)) /\
  (forall st previous st' e funding rest,
      funding_step st previous = Ok (st', e) ->
      funding_loop st funding (previous :: grant :: rest) =
      funding_loop st' (funding ++ [e; e]) rest).
Proof.
  assert (Hsame : forall st, assign st grant = st)
    by (intros st; now apply assign_without_slash).
  assert (Hreuse : forall st previous st' e,
             funding_step st previous = Ok (st', e) ->
             funding_step st' grant = Ok (st', e)).
  { intros st previous st' e Hstep. unfold funding_step in *.
    rewrite Hsame.
    destruct (read_organization (assign st previous)) as [org|] eqn:Eo;
      simpl in Hstep; [|discriminate].
    destruct (read_identifier (assign st previous)) as [i|] eqn:Ei;
      simpl in Hstep; [|discriminate].
    injection Hstep as <- <-. rewrite Eo, Ei. reflexivity. }
  repeat split.
  - unfold segments_of. now rewrite (rsplit_absent _ _ 2 Hnot).
  - exact Hsame.
  - intros rest. simpl. unfold funding_step. now rewrite Hsame.
  - exact Hreuse.
  - intros st previous st' e funding rest Hstep. simpl.
    rewrite Hstep. simpl. rewrite (Hreuse _ _ _ _ Hstep). simpl.
    now rewrite <- app_assoc.
Qed.

Lemma grant_without_slash_witness :
  pmid_to_funding [grant_support ["Wellcome Trust"]] =
    Raise (UnboundLocalError "organization") /\
  pmid_to_funding [grant_support ["G0901149/MRC/United Kingdom";
                                  "Wellcome Trust"]] =
    Ok [PDict [funder_item "MRC"; ("identifier", PStr "G0901149")];
        PDict [funder_item "MRC"; ("identifier", PStr "G0901149")]].
Proof.
  assert (Hnot : ~ In "/"%char (list_ascii_of_string "Wellcome Trust")).
  { simpl. intros H. repeat destruct H as [H|H]; try discriminate H; exact H. }
  destruct (grant_without_slash "Wellcome Trust" Hnot)
    as (_ & _ & Hfirst & _ & Hnext).
  split.
  - apply Hfirst.
  - unfold pmid_to_funding. simpl select_grants.
    rewrite (Hnext unbound _ (assign unbound "G0901149/MRC/United Kingdom")
                   (PDict [funder_item "MRC"; ("identifier", PStr "G0901149")]));
      reflexivity.
Defined.

(** C10: the "identifier" key is written only for a truthy identifier: an
    identifier that parses to the empty string is left out as [None] is,
    and wherever the key is present its value is a non-empty string. *)
Theorem identifier_key_non_empty :
  (forall org, funding_entry org (PStr "") = PDict [funder_item org]) /\
  (forall org, funding_entry org PNone = PDict [funder_item org]) /\
  (forall org i,
      truthy i = true ->
      funding_entry org i = PDict [funder_item org; ("identifier", i)]) /\
  (forall org i,
      truthy i = false -> funding_entry org i = PDict [funder_item org]) /\
  pmid_to_funding [grant_support ["/NIH HHS/United States"]] =
    Ok [PDict [funder_item "NIH HHS"]] /\
  (forall sections funding,
      pmid_to_funding sections = Ok funding ->
      Forall entry_shape funding).
Proof.
  repeat split; try reflexivity.
  - intros org i Ht. unfold funding_entry. now rewrite Ht.
  - intros org i Hf. unfold funding_entry. now rewrite Hf.
  - intros sections funding Hrun. unfold pmid_to_funding in Hrun.
    eapply funding_loop_shape; [| |exact Hrun].
    + exact I.
    + constructor.
Qed.

Lemma identifier_key_non_empty_witness :
  Forall entry_shape
         [PDict [funder_item "NCRR NIH HHS "; ("identifier", PStr "UL1 RR025780")];
          PDict [funder_item "Wellcome Trust"]].
Proof.
  apply (proj2 (proj2 (proj2 (proj2 (proj2 identifier_key_non_empty))))
           [grant_support ["UL1 RR025780/RR/NCRR NIH HHS /United States";
                           "/Wellcome Trust/United Kingdom"]]).
  reflexivity.
Defined.

(** ** Dicts *)

Section DictFacts.
Context {V : Type}.
Implicit Types (d m : PyDict.t V) (k : string) (v : V).

Lemma keys_set d k k' v :
  In k (PyDict.keys (PyDict.set d k' v)) <-> k = k' \/ In k (PyDict.keys d).
Proof.
  induction d as [|[k0 v0] tl IH]; simpl.
  - intuition.
  - destruct (String.eqb_spec k0 k') as [->|Hne]; simpl.
    + intuition.
    + rewrite IH. intuition.
Qed.

Lemma set_fresh d k v :
  ~ In k (PyDict.keys d) -> PyDict.set d k v = d ++ [(k, v)].
Proof.
  induction d as [|[k0 v0] tl IH]; simpl; intros Hnot.
  - reflexivity.
  - destruct (String.eqb_spec k0 k) as [->|Hne].
    + exfalso. apply Hnot. now left.
    + rewrite IH; [reflexivity|]. intros Hin. apply Hnot. now right.
Qed.

Lemma NoDup_keys_set d k v :
  NoDup (PyDict.keys d) -> NoDup (PyDict.keys (PyDict.set d k v)).
Proof.
  induction d as [|[k0 v0] tl IH]; simpl; intros Hnd.
  - constructor; [intros []|constructor].
  - destruct (String.eqb_spec k0 k) as [->|Hne]; simpl.
    + exact Hnd.
    + inversion Hnd as [|? ? Hnot Htl]; subst.
      constructor; [|now apply IH].
      rewrite keys_set. intros [->|Hin]; [now apply Hne|now apply Hnot].
Qed.

Lemma NoDup_keys_update m : forall d,
  NoDup (PyDict.keys d) -> NoDup (PyDict.keys (PyDict.update d m)).
Proof.
  unfold PyDict.update.
  induction m as [|[k v] tl IH]; intros d Hnd; simpl.
  - exact Hnd.
  - apply IH. now apply NoDup_keys_set.
Qed.

Lemma update_app d m1 m2 :
  PyDict.update d (m1 ++ m2) = PyDict.update (PyDict.update d m1) m2.
Proof. unfold PyDict.update. apply fold_left_app. Qed.

(** Writing keys that are all new appends the items as they come. *)
Lemma update_fresh m : forall d,
  NoDup (PyDict.keys d ++ PyDict.keys m) -> PyDict.update d m = d ++ m.
Proof.
  induction m as [|[k v] tl IH]; intros d Hnd.
  - now rewrite app_nil_r.
  - change (PyDict.update d ((k, v) :: tl))
      with (PyDict.update (PyDict.set d k v) tl).
    simpl in Hnd.
    assert (Hnot : ~ In k (PyDict.keys d)).
    { apply NoDup_remove_2 in Hnd. intros Hin. apply Hnd.
      apply in_or_app. now left. }
    rewrite (set_fresh _ _ _ Hnot), IH.
    + now rewrite <- app_assoc.
    + unfold PyDict.keys in *. rewrite map_app. simpl.
      now rewrite <- app_assoc.
Qed.

Lemma get_In d k v :
  NoDup (PyDict.keys d) -> In (k, v) d -> PyDict.get d k = Some v.
Proof.
  induction d as [|[k0 v0] tl IH]; simpl; intros Hnd Hin.
  - contradiction.
  - inversion Hnd as [|? ? Hnot Htl]; subst.
    destruct Hin as [Heq|Hin].
    + injection Heq as -> ->. now rewrite String.eqb_refl.
    + destruct (String.eqb_spec k0 k) as [->|Hne].
      * exfalso. apply Hnot. change k with (fst (k, v)). now apply in_map.
      * now apply IH.
Qed.
End DictFacts.

(** ** Order of keys *)

Lemma leb_cases (a b : string) :
  String.leb a b = true <-> a = b \/ String_as_OT.lt a b.
Proof.
  unfold String.leb.
  destruct (String.compare a b) eqn:E.
  - apply String.compare_eq_iff in E. intuition.
  - apply String_as_OT.cmp_lt in E. intuition.
  - split; [discriminate|]. intros [->|Hlt].
    + assert (String_as_OT.cmp b b = Eq) as H by now apply String_as_OT.cmp_eq.
      unfold String_as_OT.cmp in H. congruence.
    + apply String_as_OT.cmp_lt in Hlt. unfold String_as_OT.cmp in Hlt.
      congruence.
Qed.

Lemma ltb_lt (a b : string) : key_lt a b <-> String_as_OT.lt a b.
Proof.
  unfold key_lt, String.ltb. rewrite <- String_as_OT.cmp_lt.
  unfold String_as_OT.cmp.
  destruct (String.compare a b); split; congruence.
Qed.

Lemma leb_trans (a b c : string) :
  String.leb a b = true -> String.leb b c = true -> String.leb a c = true.
Proof.
  rewrite !leb_cases. intros [->|Hab] [->|Hbc]; auto.
  right. eapply String_as_OT.lt_trans; eassumption.
Qed.

Lemma item_leb_transitive :
  Relations_1.Transitive (fun x y => is_true (ItemOrder.leb x y)).
Proof.
  intros x y z. unfold ItemOrder.leb, is_true. apply leb_trans.
Qed.

(** A list in non-strict order without repetition is in strict order. *)
Lemma strict_of_NoDup (l : list string) :
  StronglySorted (fun a b => String.leb a b = true) l ->
  NoDup l ->
  StronglySorted key_lt l.
Proof.
  induction 1 as [|a l Hs IH Hall]; intros Hnd; constructor.
  - apply IH. now inversion Hnd.
  - inversion Hnd as [|? ? Hnot _]; subst.
    rewrite Forall_forall in *. intros b Hb.
    apply ltb_lt. destruct (proj1 (leb_cases a b) (Hall b Hb)) as [->|Hlt].
    + contradiction.
    + exact Hlt.
Qed.

Lemma sorted_keys (items : PyDict.t pyval) :
  NoDup (PyDict.keys items) ->
  StronglySorted key_lt (PyDict.keys (sorted items)).
Proof.
  intros Hnd. apply strict_of_NoDup.
  - pose proof (ItemSort.StronglySorted_sort items item_leb_transitive) as Hs.
    unfold sorted. induction Hs as [|x l _ IH Hall]; simpl; constructor.
    + exact IH.
    + rewrite Forall_forall in *. intros k Hk.
      apply in_map_iff in Hk. destruct Hk as (y & <- & Hy).
      exact (Hall y Hy).
  - unfold PyDict.keys, sorted.
    eapply Permutation_NoDup; [|exact Hnd].
    apply Permutation_map. apply ItemSort.Permuted_sort.
Qed.

(** ** [transform] *)

Lemma transform_step_written mappings _doc item :
  transform_step mappings _doc item =
  (w <- written mappings item ;; Ok (PyDict.update _doc w)).
Proof.
  unfold transform_step, written. destruct item as [key value]. simpl.
  destruct (PyDict.get mappings key) as [[name|f|]|]; reflexivity.
Qed.

Lemma transform_loop_app mappings (before after : list (string * pyval)) :
  forall _doc,
    transform_loop mappings _doc (before ++ after) =
    (_doc' <- transform_loop mappings _doc before ;;
     transform_loop mappings _doc' after).
Proof.
  induction before as [|item rest IH]; intros _doc; simpl.
  - reflexivity.
  - destruct (transform_step mappings _doc item); simpl; [apply IH|reflexivity].
Qed.

Lemma transform_loop_written mappings (doc : list (string * pyval)) :
  forall ws _doc,
    Forall2 (fun item w => written mappings item = Ok w) doc ws ->
    transform_loop mappings _doc doc = Ok (PyDict.update _doc (List.concat ws)).
Proof.
  induction doc as [|item rest IH]; intros ws _doc Hw; inversion Hw; subst.
  - reflexivity.
  - simpl. rewrite transform_step_written.
    match goal with H : written _ _ = Ok _ |- _ => rewrite H end. simpl.
    rewrite update_app. now apply IH.
Qed.

Lemma transform_loop_NoDup mappings (doc : list (string * pyval)) :
  forall _doc out,
    NoDup (PyDict.keys _doc) ->
    transform_loop mappings _doc doc = Ok out ->
    NoDup (PyDict.keys out).
Proof.
  induction doc as [|item rest IH]; intros _doc out Hnd Hrun; simpl in Hrun.
  - now injection Hrun as <-.
  - rewrite transform_step_written in Hrun.
    destruct (written mappings item) as [w|]; simpl in Hrun; [|discriminate].
    eapply IH; [|exact Hrun]. now apply NoDup_keys_update.
Qed.

Lemma initial_doc_NoDup : NoDup (PyDict.keys initial_doc).
Proof.
  simpl. repeat constructor; simpl; intuition discriminate.
Qed.

(** Whenever [transform] returns, the keys come in strictly ascending
    order. *)
Lemma transform_sorted doc mappings out :
  transform doc mappings = Ok out ->
  StronglySorted key_lt (PyDict.keys out).
Proof.
  unfold transform. intros Hrun.
  destruct (transform_loop mappings initial_doc doc) as [_doc|] eqn:Eloop;
    simpl in Hrun; [|discriminate].
  injection Hrun as <-. apply sorted_keys.
  eapply transform_loop_NoDup; [apply initial_doc_NoDup|exact Eloop].
Qed.

(** With no invalid entry under a key of the record, and callables that
    return their mapping, the loop runs to its end. *)
Lemma transform_loop_returns mappings (doc : list (string * pyval)) :
  (forall key value, In (key, value) doc ->
                     PyDict.get mappings key <> Some MOther) ->
  (forall key value f, In (key, value) doc ->
                       PyDict.get mappings key = Some (MCallable f) ->
                       exists m, f value = Ok m) ->
  exists ws, Forall2 (fun item w => written mappings item = Ok w) doc ws.
Proof.
  induction doc as [|[key value] rest IH]; intros Hvalid Hcall.
  - exists []. constructor.
  - destruct IH as [ws Hws].
    + intros k v Hin. apply (Hvalid k v). now right.
    + intros k v f Hin. apply (Hcall k v f). now right.
    + assert (exists w, written mappings (key, value) = Ok w) as [w Hw].
      { unfold written. simpl.
        destruct (PyDict.get mappings key) as [[name|f|]|] eqn:E.
        - eauto.
        - apply (Hcall key value f); [now left|exact E].
        - exfalso. apply (Hvalid key value); [now left|exact E].
        - eauto. }
      exists (w :: ws). now constructor.
Qed.

(** C2: a record with a key whose table entry is neither a string nor a
    callable makes [transform] fail; the failure is the [RuntimeError]
    raised for the invalid mapping table whenever the loop reaches that
    key, and it always does when the callables met before return. *)
Theorem invalid_entry_raises
        (mappings : PyDict.t mapping_entry)
        (before after : list (string * pyval)) (key : string) (value : pyval)
        (Hinvalid : PyDict.get mappings key = Some MOther) :
  let doc := before ++ (key, value) :: after in
  (exists e, transform doc mappings = Raise e) /\
  (forall _doc,
      transform_loop mappings initial_doc before = Ok _doc ->
      transform doc mappings = Raise RuntimeError) /\
  ((forall k v f, In (k, v) before ->
                  PyDict.get mappings k = Some (MCallable f) ->
                  exists m, f v = Ok m) ->
   transform doc mappings = Raise RuntimeError).
Proof.
  cbv zeta.
  assert (Hhere : forall _doc,
             transform_loop mappings _doc ((key, value) :: after) =
             Raise RuntimeError).
  { intros _doc. simpl. now rewrite Hinvalid. }
  assert (Hreach : forall _doc,
             transform_loop mappings initial_doc before = Ok _doc ->
             transform (before ++ (key, value) :: after) mappings =
             Raise RuntimeError).
  { intros _doc Hbefore. unfold transform.
    rewrite transform_loop_app, Hbefore. cbn [bind].
    now rewrite Hhere. }
  split; [|split].
  - unfold transform. rewrite transform_loop_app.
    destruct (transform_loop mappings initial_doc before) as [_doc|e];
      cbn [bind].
    + rewrite Hhere. simpl. eauto.
    + eauto.
  - exact Hreach.
  - intros Hcall. clear Hreach. unfold transform. rewrite transform_loop_app.
    generalize initial_doc.
    induction before as [|[k v] rest IH]; intros _doc.
    + change (transform_loop mappings _doc []) with (Ok _doc).
      cbn [bind]. now rewrite Hhere.
    + simpl. destruct (PyDict.get mappings k) as [[name|f|]|] eqn:E; simpl.
      * apply IH. intros k' v' f' Hin. apply (Hcall k' v' f'). now right.
      * destruct (Hcall k v f (or_introl eq_refl) E) as [m ->]. simpl.
        apply IH. intros k' v' f' Hin. apply (Hcall k' v' f'). now right.
      * reflexivity.
      * apply IH. intros k' v' f' Hin. apply (Hcall k' v' f'). now right.
Qed.

Lemma invalid_entry_raises_witness :
  transform [("title", PStr "A"); ("size", PStr "3"); ("url", PStr "u")]
            [("title", MStr "name"); ("size", MOther)] =
  Raise RuntimeError.
Proof.
  refine (proj1 (proj2
    (invalid_entry_raises
       [("title", MStr "name"); ("size", MOther)]
       [("title", PStr "A")] [("url", PStr "u")] "size" (PStr "3") _)) _ _).
  - reflexivity.
  - reflexivity.
Defined.

(** C8: for a record and a valid mapping table (no invalid entry under a
    key of the record, callables returning their mapping) [transform]
    returns, and the keys of what it returns are in ascending order. *)
Theorem transform_keys_ascending
        (doc : PyDict.t pyval) (mappings : PyDict.t mapping_entry)
        (Hvalid : forall key value, In (key, value) doc ->
                                    PyDict.get mappings key <> Some MOther)
        (Hcall : forall key value f,
            In (key, value) doc ->
            PyDict.get mappings key = Some (MCallable f) ->
            exists m, f value = Ok m) :
  exists out,
    transform doc mappings = Ok out /\
    StronglySorted key_lt (PyDict.keys out).
Proof.
  destruct (transform_loop_returns mappings doc Hvalid Hcall) as [ws Hws].
  pose proof (transform_loop_written mappings doc ws initial_doc Hws) as Hrun.
  exists (sorted (PyDict.update initial_doc (List.concat ws))). split.
  - unfold transform. now rewrite Hrun.
  - apply (transform_sorted doc mappings). unfold transform. now rewrite Hrun.
Qed.

Lemma transform_keys_ascending_witness :
  exists out,
    transform [("title", PStr "A"); ("pmid", PStr "1"); ("x", PNone)]
              [("title", MStr "name");
               ("pmid", MCallable (fun v => Ok [("citation", v)]))] = Ok out /\
    StronglySorted key_lt (PyDict.keys out).
Proof.
  apply transform_keys_ascending.
  - intros key value [H|[H|[H|[]]]]; injection H as <- <-; simpl; discriminate.
  - intros key value f [H|[H|[H|[]]]]; injection H as <- <-; simpl;
      intros E; try discriminate E.
    injection E as <-. eexists. reflexivity.
Defined.

(** Three valid tables under which the output is not of that form: a
    destination that is one of the constants, two keys renamed to one
    destination, a callable that returns two entries. *)
Lemma transform_not_one_entry_per_key :
  (exists out,
      transform [("kind", PStr "Article")] [("kind", MStr "@type")] = Ok out /\
      ~ constants_plus_one_per_recognized
          [("kind", PStr "Article")] [("kind", MStr "@type")] out) /\
  (exists out,
      transform [("a", PStr "1"); ("b", PStr "2")]
                [("a", MStr "name"); ("b", MStr "name")] = Ok out /\
      ~ constants_plus_one_per_recognized
          [("a", PStr "1"); ("b", PStr "2")]
          [("a", MStr "name"); ("b", MStr "name")] out) /\
  (exists out,
      transform [("pmid", PStr "1")]
                [("pmid", MCallable (fun v => Ok [("citation", v);
                                                  ("funding", PList [])]))]
      = Ok out /\
      ~ constants_plus_one_per_recognized
          [("pmid", PStr "1")]
          [("pmid", MCallable (fun v => Ok [("citation", v);
                                            ("funding", PList [])]))] out).
Proof.
  split; [|split]; eexists; (split; [vm_compute; reflexivity|]);
    unfold constants_plus_one_per_recognized; simpl;
    intros (_ & H1 & H2); discriminate.
Qed.

(** C5, amended: when the keys written while the record is processed (the
    destination name for a key with a string entry, the keys of the
    returned mapping for a key with a callable entry) differ pairwise and
    from "@context" and "@type", the output holds exactly the two
    constants and the written entries, one per source key with a string
    entry, none for a source key the table does not have; the empty record
    gives exactly the two constants. *)
Theorem transform_output_entries
        (doc : PyDict.t pyval) (mappings : PyDict.t mapping_entry)
        (ws : list (PyDict.t pyval))
        (Hws : Forall2 (fun item w => written mappings item = Ok w) doc ws)
        (Hfresh : NoDup ("@context" :: "@type" :: PyDict.keys (List.concat ws))) :
  (forall m, transform [] m = Ok initial_doc) /\
  Forall2 (fun item w =>
             match PyDict.get mappings (fst item) with
             | None => w = []
             | Some (MStr name) => w = [(name, snd item)]
             | Some (MCallable f) => f (snd item) = Ok w
             | Some MOther => False
             end) doc ws /\
  exists out,
    transform doc mappings = Ok out /\
    Permutation (initial_doc ++ List.concat ws) out /\
    PyDict.get out "@context" = Some (PStr "http://schema.org/") /\
    PyDict.get out "@type" = Some (PStr "Dataset") /\
    ((forall item e, In item doc ->
                     PyDict.get mappings (fst item) = Some e ->
                     exists name, e = MStr name) ->
     List.length out = 2 + List.length (filter (recognized mappings) doc)).
Proof.
  split; [reflexivity|]. split.
  - clear Hfresh. induction Hws as [|item w doc' ws' Hw _ IH]; constructor.
    + unfold written in Hw.
      destruct (PyDict.get mappings (fst item)) as [[name|f|]|].
      * now injection Hw.
      * exact Hw.
      * discriminate Hw.
      * now injection Hw.
    + exact IH.
  - pose proof (transform_loop_written mappings doc ws initial_doc Hws) as Hrun.
    assert (Hnd : NoDup (PyDict.keys (initial_doc ++ List.concat ws))).
    { unfold PyDict.keys. rewrite map_app. exact Hfresh. }
    rewrite update_fresh in Hrun
      by (unfold PyDict.keys in *; now rewrite <- map_app).
    set (_doc := initial_doc ++ List.concat ws) in *.
    assert (Hperm : Permutation _doc (sorted _doc))
      by apply ItemSort.Permuted_sort.
    assert (Hnd' : NoDup (PyDict.keys (sorted _doc))).
    { eapply Permutation_NoDup; [|exact Hnd].
      unfold PyDict.keys. now apply Permutation_map. }
    exists (sorted _doc). split; [|split; [|split; [|split]]].
    + unfold transform. now rewrite Hrun.
    + exact Hperm.
    + apply get_In; [exact Hnd'|].
      eapply Permutation_in; [exact Hperm|]. now left.
    + apply get_In; [exact Hnd'|].
      eapply Permutation_in; [exact Hperm|]. right. now left.
    + intros Hstr. rewrite <- (Permutation_length Hperm).
      unfold _doc. rewrite length_app. simpl. do 2 f_equal.
      clear - Hws Hstr.
      induction Hws as [|item w doc' ws' Hw _ IH]; [reflexivity|].
      simpl. rewrite length_app, IH
        by (intros i e Hin; apply Hstr; now right).
      unfold written in Hw. unfold recognized at 2.
      destruct (PyDict.get mappings (fst item)) as [e|] eqn:E.
      * destruct (Hstr item e (or_introl eq_refl) E) as [name ->].
        injection Hw as <-. reflexivity.
      * injection Hw as <-. reflexivity.
Qed.

Lemma transform_output_entries_witness :
  exists out,
    transform [("title", PStr "A"); ("pmid", PStr "1"); ("x", PNone)]
              [("title", MStr "name"); ("pmid", MStr "identifier")] = Ok out /\
    Permutation [("@context", PStr "http://schema.org/");
                 ("@type", PStr "Dataset");
                 ("name", PStr "A"); ("identifier", PStr "1")] out /\
    List.length out = 4.
Proof.
  destruct (transform_output_entries
              [("title", PStr "A"); ("pmid", PStr "1"); ("x", PNone)]
              [("title", MStr "name"); ("pmid", MStr "identifier")]
              [[("name", PStr "A")]; [("identifier", PStr "1")]; []])
    as (_ & _ & out & Hrun & Hperm & _ & _ & Hlen).
  - repeat constructor.
  - repeat constructor; simpl; intuition discriminate.
  - exists out. split; [exact Hrun|]. split; [exact Hperm|].
    apply Hlen. intros item e [<-|[<-|[<-|[]]]]; simpl; intros E;
      try discriminate E; injection E as <-; eexists; reflexivity.
Defined.

(** ** [pmid_with_eutils] *)

Lemma append_assoc (a b c : string) : ((a ++ b) ++ c = a ++ (b ++ c))%string.
Proof. induction a as [|x a IH]; simpl; [reflexivity|now rewrite IH]. Qed.

Lemma append_empty_r (a : string) : (a ++ "" = a)%string.
Proof. induction a as [|x a IH]; simpl; [reflexivity|now rewrite IH]. Qed.

(** The feature fragments are appended to whatever the citation holds. *)
Lemma features_loop_append (root : element) (citation : string) :
  features_loop root citation = (citation ++ features_loop root "")%string.
Proof.
  unfold features_loop. generalize features as fs. intros fs. revert citation.
  induction fs as [|ft rest IH]; intros citation; simpl.
  - now rewrite append_empty_r.
  - rewrite IH. rewrite (IH (match find_path root (fst ft) with
                             | Some _ => _ | None => _ end)).
    destruct (find_path root (fst ft)) as [x|]; simpl.
    + now rewrite !append_assoc.
    + reflexivity.
Qed.

Lemma grant_dict_entry (g : element) : grant_dict g = spec_grant_entry g.
Proof.
  unfold grant_dict, spec_grant_entry.
  destruct (find g "Agency"), (find g "GrantID"); reflexivity.
Qed.

(** [if grant:] holds when one of the two keys was written. *)
Lemma entry_truthy (g : element) :
  truthy (PDict (spec_grant_entry g)) = has_field g.
Proof.
  unfold spec_grant_entry, has_field.
  destruct (find g "Agency"), (find g "GrantID"); reflexivity.
Qed.

Lemma grants_loop_entries (elements : list element) : forall grants,
  grants_loop grants elements =
  grants ++ map (fun g => PDict (spec_grant_entry g)) (filter has_field elements).
Proof.
  induction elements as [|g rest IH]; intros grants;
    cbn [grants_loop filter map].
  - now rewrite app_nil_r.
  - rewrite grant_dict_entry, entry_truthy.
    destruct (has_field g); rewrite IH;
      [rewrite <- app_assoc|]; reflexivity.
Qed.

Lemma authors_loop_names (elements : list element) : forall names authors,
  Forall2 (fun a n => author_name a = Ok n) elements names ->
  authors_loop authors elements = Ok (authors ++ names).
Proof.
  induction elements as [|a rest IH]; intros names authors Hn;
    inversion Hn; subst; simpl.
  - now rewrite app_nil_r.
  - match goal with H : author_name a = Ok _ |- _ => rewrite H end. simpl.
    rewrite (IH _ _ ltac:(eassumption)). now rewrite <- app_assoc.
Qed.

(** The author loop fails in one way only: [.text] read on the [None] that
    [find] returned. *)
Lemma authors_loop_raises (elements : list element) : forall authors e,
  authors_loop authors elements = Raise e -> e = no_text_attribute.
Proof.
  induction elements as [|a rest IH]; intros authors e Hrun; simpl in Hrun.
  - discriminate.
  - unfold author_name, text_of_found in Hrun.
    destruct (find a "LastName"); simpl in Hrun; [|now injection Hrun].
    destruct (find a "Initials"); simpl in Hrun; [|now injection Hrun].
    now apply IH in Hrun.
Qed.

(** With a root that has children and authors that all have both
    children, the call returns the grant entries and the citation. *)
Lemma pmid_with_eutils_returns
      (fromstring : string -> option element) (body : string)
      (root : element) (names : list string) :
  fromstring body = Some root ->
  element_truthy root = true ->
  Forall2 (fun a n => author_name a = Ok n)
          (findall_descendants root "Author") names ->
  pmid_with_eutils fromstring body =
  Ok (map (fun g => PDict (spec_grant_entry g))
          (filter has_field (findall_descendants root "Grant")),
      (author_string names ++ features_loop root "")%string).
Proof.
  intros Hparse Hroot Hnames. unfold pmid_with_eutils.
  rewrite Hparse, Hroot. cbn [negb].
  rewrite (authors_loop_names _ _ [] Hnames). cbn [bind app].
  now rewrite grants_loop_entries, features_loop_append.
Qed.

(** C3, the failing case: an [Author] element without a [LastName] child,
    or without an [Initials] child, ends the call with an
    [AttributeError]; the [Grant] loop and the feature loop test what
    [find] returns before reading [.text], the author loop does not. *)
Theorem author_without_child_raises :
  let collective :=
    Element "PubmedArticleSet" None
      [Element "Author" None [Element "CollectiveName" (Some "WHO") []]] in
  let no_initials :=
    Element "PubmedArticleSet" None
      [Element "Author" None [Element "LastName" (Some "Doe") []]] in
  let bare_grant :=
    Element "PubmedArticleSet" None [Element "Grant" None []] in
  pmid_with_eutils (fun _ => Some collective) "" = Raise no_text_attribute /\
  pmid_with_eutils (fun _ => Some no_initials) "" = Raise no_text_attribute /\
  pmid_with_eutils (fun _ => Some bare_grant) "" = Ok ([], "").
Proof.
  cbv zeta. repeat split; vm_compute; reflexivity.
Qed.

(** A well-formed document whose root has no child fails the [assert],
    not the parser. *)
Lemma childless_root_not_ParseError :
  let root := Element "PubmedArticleSet" None [] in
  pmid_with_eutils (fun _ => Some root) "<PubmedArticleSet/>" =
    Raise AssertionError /\
  ~ rejected_or_empty_is_ParseError (fun _ => Some root) "<PubmedArticleSet/>".
Proof.
  cbv zeta. split; [reflexivity|].
  intros Hstated.
  assert (H : pmid_with_eutils
                (fun _ => Some (Element "PubmedArticleSet" None []))
                "<PubmedArticleSet/>" = Raise ParseError).
  { apply Hstated. right. eexists. split; reflexivity. }
  discriminate H.
Qed.

(** C4, amended: a body the parser rejects ends the call with the
    parser's [ParseError], and nothing else does; a parsed document whose
    root has no child element ends it with the [AssertionError] of
    [assert root], and nothing else does. *)
Theorem parse_and_assert_failures
        (fromstring : string -> option element) (body : string) :
  (pmid_with_eutils fromstring body = Raise ParseError <->
   fromstring body = None) /\
  (pmid_with_eutils fromstring body = Raise AssertionError <->
   exists root, fromstring body = Some root /\ children root = []).
Proof.
  unfold pmid_with_eutils.
  destruct (fromstring body) as [root|] eqn:Eparse.
  - unfold element_truthy.
    destruct (children root) as [|c cs] eqn:Ec; cbn [List.length Nat.eqb negb].
    + split; split; try discriminate.
      * intros _. now exists root.
      * reflexivity.
    + destruct (authors_loop [] (findall_descendants root "Author"))
        as [authors|e] eqn:Ea; cbn [bind].
      * split; split; try discriminate.
        intros (r & Hr & Hc). injection Hr as <-. congruence.
      * apply authors_loop_raises in Ea. subst e.
        split; split; try discriminate.
        intros (r & Hr & Hc). injection Hr as <-. congruence.
  - split; split; try reflexivity; try discriminate.
    intros (r & Hr & _). discriminate Hr.
Qed.

Lemma parse_and_assert_failures_witness :
  pmid_with_eutils (fun _ => None) "<PubmedArticleSet>" = Raise ParseError /\
  pmid_with_eutils (fun _ => Some (Element "PubmedArticleSet" (Some " ") []))
                   "<PubmedArticleSet> </PubmedArticleSet>" =
    Raise AssertionError.
Proof.
  split.
  - apply (proj1 (parse_and_assert_failures (fun _ => None) _)). reflexivity.
  - apply (proj2 (parse_and_assert_failures
                    (fun _ => Some (Element "PubmedArticleSet" (Some " ") []))
                    _)).
    eexists. split; reflexivity.
Defined.

(** C6: the citation starts with the author segment, which for the names
    "LastName Initials" in document order is empty without authors,
    "name. " for one author, the names joined by ", " and then ". " for
    two to four authors, the first four names joined by ", " and then
    " et al. " for more than four. *)
Theorem author_segment
        (fromstring : string -> option element) (body : string)
        (root : element) (names : list string)
        (Hparse : fromstring body = Some root)
        (Hroot : element_truthy root = true)
        (Hnames : Forall2 (fun a n => author_name a = Ok n)
                          (findall_descendants root "Author") names) :
  (exists grants,
      pmid_with_eutils fromstring body =
      Ok (grants, (author_string names ++ features_loop root "")%string)) /\
  (names = [] -> author_string names = "") /\
  (forall name, names = [name] -> author_string names = (name ++ ". ")%string) /\
  (2 <= List.length names <= 4 ->
   author_string names = (PyStr.join ", " names ++ ". ")%string) /\
  (4 < List.length names ->
   author_string names =
   (PyStr.join ", " (firstn 4 names) ++ " et al. ")%string).
Proof.
  split; [|clear; repeat split].
  - eexists. now apply pmid_with_eutils_returns.
  - now intros ->.
  - now intros name ->.
  - intros [Hlo Hhi].
    destruct names as [|a [|b [|c [|d [|e tl]]]]]; simpl in Hlo, Hhi;
      try lia; reflexivity.
  - intros Hlen.
    destruct names as [|a [|b [|c [|d [|e tl]]]]]; simpl in Hlen;
      try lia; reflexivity.
Qed.

Lemma author_segment_witness :
  exists grants,
    pmid_with_eutils (fun _ => Some six_authors) "" =
    Ok (grants, "A X, B Y, C Z, D W et al. ").
Proof.
  destruct (author_segment (fun _ => Some six_authors) "" six_authors
                           ["A X"; "B Y"; "C Z"; "D W"; "E V"; "F U"]
                           eq_refl eq_refl)
    as ((grants & Hrun) & _ & _ & _ & Hmany).
  - repeat constructor.
  - exists grants. rewrite Hrun, Hmany by (simpl; lia). reflexivity.
Defined.

(** C7: the grants are the entries of the [Grant] elements in document
    order, each with "funder" (named by the text of the [Agency] child)
    when there is an [Agency] child and "identifier" (the text of the
    [GrantID] child) when there is a [GrantID] child, the elements with
    neither left out; one [Grant] with the agency "NIH" and no [GrantID]
    gives one entry, without an "identifier" key. *)
Theorem grants_of_grant_elements
        (fromstring : string -> option element) (body : string)
        (root : element)
        (Hparse : fromstring body = Some root) :
  let expected :=
    map (fun g => PDict (spec_grant_entry g))
        (filter has_field (findall_descendants root "Grant")) in
  (forall grants citation,
      pmid_with_eutils fromstring body = Ok (grants, citation) ->
      grants = expected) /\
  (element_truthy root = true ->
   forall names,
     Forall2 (fun a n => author_name a = Ok n)
             (findall_descendants root "Author") names ->
     exists citation,
       pmid_with_eutils fromstring body = Ok (expected, citation)) /\
  (forall g, has_field g = true <->
             find g "Agency" <> None \/ find g "GrantID" <> None) /\
  (forall text,
      pmid_with_eutils
        (fun _ => Some (Element "PubmedArticleSet" None
                          [Element "GrantList" None
                             [Element "Grant" None
                                [Element "Agency" (Some "NIH") []]]]))
        text =
      Ok ([PDict [("funder", PDict [("@type", PStr "Organization");
                                    ("name", PStr "NIH")])]], "")).
Proof.
  cbv zeta. split; [|split; [|split]].
  - intros grants citation Hrun. unfold pmid_with_eutils in Hrun.
    rewrite Hparse in Hrun.
    destruct (negb (element_truthy root)); [discriminate|].
    destruct (authors_loop [] (findall_descendants root "Author"));
      cbn [bind] in Hrun; [|discriminate].
    injection Hrun as <- _. now rewrite grants_loop_entries.
  - intros Hroot names Hnames. eexists.
    exact (pmid_with_eutils_returns _ _ _ _ Hparse Hroot Hnames).
  - intros g. unfold has_field.
    destruct (find g "Agency"), (find g "GrantID"); split; intros H;
      try reflexivity; try discriminate H;
      try (left; discriminate); try (right; discriminate).
    destruct H as [H|H]; exfalso; now apply H.
  - intros text. reflexivity.
Qed.

Lemma grants_of_grant_elements_witness :
  exists citation,
    pmid_with_eutils (fun _ => Some two_grants) "" =
    Ok ([PDict [("funder", PDict [("@type", PStr "Organization");
                                  ("name", PStr "NIDDK NIH HHS")]);
                ("identifier", PStr "R01 DK090554")];
         PDict [("funder", PDict [("@type", PStr "Organization");
                                  ("name", PStr "Wellcome Trust")])]],
        citation).
Proof.
  destruct (grants_of_grant_elements (fun _ => Some two_grants) ""
                                     two_grants eq_refl)
    as (_ & Hreturns & _).
  destruct (Hreturns eq_refl []) as [citation Hrun].
  - constructor.
  - exists citation. exact Hrun.
Defined.

(** * Further properties *)

(** ** Splitting *)

Lemma break_some (sep : ascii) (cs a b : list ascii) :
  PyStr.break sep cs = Some (a, b) -> cs = a ++ sep :: b /\ ~ In sep a.
Proof.
  revert a b. induction cs as [|c tl IH]; intros a b H; simpl in H.
  - discriminate.
  - destruct (Ascii.eqb c sep) eqn:E.
    + apply Ascii.eqb_eq in E. subst c. injection H as <- <-.
      split; [reflexivity|intros []].
    + destruct (PyStr.break sep tl) as [[a' b']|]; [|discriminate].
      injection H as <- <-. destruct (IH a' b' eq_refl) as [-> Hnot].
      split; [reflexivity|]. intros [->|Hin].
      * now rewrite Ascii.eqb_refl in E.
      * now apply Hnot.
Qed.

Lemma break_none (sep : ascii) (cs : list ascii) :
  PyStr.break sep cs = None -> ~ In sep cs.
Proof.
  induction cs as [|c tl IH]; intros H; simpl in H.
  - intros [].
  - destruct (Ascii.eqb c sep) eqn:E; [discriminate|].
    destruct (PyStr.break sep tl) as [[a b]|]; [discriminate|].
    intros [->|Hin].
    + now rewrite Ascii.eqb_refl in E.
    + now apply IH.
Qed.

Lemma string_of_list_ascii_app (a b : list ascii) :
  string_of_list_ascii (a ++ b) =
  (string_of_list_ascii a ++ string_of_list_ascii b)%string.
Proof. induction a as [|c a IH]; simpl; [reflexivity|now rewrite IH]. Qed.

Lemma length_string_of_list_ascii (a : list ascii) :
  String.length (string_of_list_ascii a) = List.length a.
Proof. induction a as [|c a IH]; simpl; [reflexivity|now rewrite IH]. Qed.

Lemma string_as_list (s : string) (cs : list ascii) :
  list_ascii_of_string s = cs -> s = string_of_list_ascii cs.
Proof. intros <-. now rewrite string_of_list_ascii_of_string. Qed.

(** The three shapes of [s.rsplit(sep, 2)]: no separator, one, or at
    least two; the parts after the first hold no separator. *)
Lemma rsplit2_cases (s : string) (sep : ascii) :
  let str := string_of_list_ascii in
  (~ In sep (list_ascii_of_string s) /\ PyStr.rsplit s sep 2 = [s]) \/
  (exists a b,
      list_ascii_of_string s = a ++ sep :: b /\
      ~ In sep a /\ ~ In sep b /\
      PyStr.rsplit s sep 2 = [str a; str b]) \/
  (exists a b c,
      list_ascii_of_string s = a ++ sep :: b ++ sep :: c /\
      ~ In sep b /\ ~ In sep c /\
      PyStr.rsplit s sep 2 = [str a; str b; str c]).
Proof.
  cbv zeta. unfold PyStr.rsplit.
  assert (Hs : list_ascii_of_string s = rev (rev (list_ascii_of_string s)))
    by now rewrite rev_involutive.
  set (r := rev (list_ascii_of_string s)) in *. simpl.
  destruct (PyStr.break sep r) as [[a b]|] eqn:E1.
  - destruct (break_some _ _ _ _ E1) as [Hr Ha].
    destruct (PyStr.break sep b) as [[a2 b2]|] eqn:E2.
    + destruct (break_some _ _ _ _ E2) as [Hb Ha2].
      right. right. exists (rev b2), (rev a2), (rev a).
      repeat split.
      * rewrite Hs, Hr, Hb. rewrite rev_app_distr. simpl.
        rewrite rev_app_distr. simpl. now rewrite <- !app_assoc.
      * now rewrite <- in_rev.
      * now rewrite <- in_rev.
    + apply break_none in E2.
      right. left. exists (rev b), (rev a). repeat split.
      * rewrite Hs, Hr. rewrite rev_app_distr. simpl.
        now rewrite <- app_assoc.
      * now rewrite <- in_rev.
      * now rewrite <- in_rev.
  - apply break_none in E1. left. split.
    + rewrite Hs. now rewrite <- in_rev.
    + simpl. now rewrite <- Hs, string_of_list_ascii_of_string.
Qed.

(** The two shapes of [s.rsplit(sep, 1)]. *)
Lemma rsplit1_cases (s : string) (sep : ascii) :
  let str := string_of_list_ascii in
  (~ In sep (list_ascii_of_string s) /\ PyStr.rsplit s sep 1 = [s]) \/
  (exists a b,
      list_ascii_of_string s = a ++ sep :: b /\ ~ In sep b /\
      PyStr.rsplit s sep 1 = [str a; str b]).
Proof.
  cbv zeta. unfold PyStr.rsplit.
  assert (Hs : list_ascii_of_string s = rev (rev (list_ascii_of_string s)))
    by now rewrite rev_involutive.
  set (r := rev (list_ascii_of_string s)) in *. simpl.
  destruct (PyStr.break sep r) as [[a b]|] eqn:E1.
  - destruct (break_some _ _ _ _ E1) as [Hr Ha].
    right. exists (rev b), (rev a). repeat split.
    + rewrite Hs, Hr. rewrite rev_app_distr. simpl. now rewrite <- app_assoc.
    + now rewrite <- in_rev.
  - apply break_none in E1. left. split.
    + rewrite Hs. now rewrite <- in_rev.
    + simpl. now rewrite <- Hs, string_of_list_ascii_of_string.
Qed.

Lemma list_ascii_of_string_app (a b : string) :
  list_ascii_of_string (a ++ b) =
  list_ascii_of_string a ++ list_ascii_of_string b.
Proof. induction a as [|c a IH]; simpl; [reflexivity|now rewrite IH]. Qed.

(** The place of the last separator is unique. *)
Lemma last_sep_unique (sep : ascii) (a : list ascii) : forall a' b b',
  a ++ sep :: b = a' ++ sep :: b' ->
  ~ In sep b -> ~ In sep b' ->
  a = a' /\ b = b'.
Proof.
  induction a as [|x a IH]; intros [|y a'] b b' Heq Hb Hb'; simpl in Heq.
  - injection Heq as <-. now split.
  - injection Heq as <- ->. exfalso. apply Hb. apply in_or_app. right. now left.
  - injection Heq as -> <-. exfalso. apply Hb'. apply in_or_app. right. now left.
  - injection Heq as <- Heq. destruct (IH _ _ _ Heq Hb Hb') as [<- <-].
    now split.
Qed.

Lemma rsplit1_of_parts (a b : string) :
  ~ has_slash b -> PyStr.rsplit (a ++ "/" ++ b) "/" 1 = [a; b].
Proof.
  intros Hb. unfold has_slash in Hb.
  destruct (rsplit1_cases (a ++ "/" ++ b) "/") as [[Hnot _]|(x & y & Hxy & Hy & ->)].
  - exfalso. apply Hnot. rewrite list_ascii_of_string_app. apply in_or_app.
    right. now left.
  - rewrite list_ascii_of_string_app in Hxy. simpl in Hxy. symmetry in Hxy.
    destruct (last_sep_unique _ _ _ _ _ Hxy Hy Hb) as [-> ->].
    now rewrite !string_of_list_ascii_of_string.
Qed.

Lemma rsplit2_of_two_parts (org country : string) :
  ~ has_slash org -> ~ has_slash country ->
  PyStr.rsplit (org ++ "/" ++ country) "/" 2 = [org; country].
Proof.
  intros Ho Hc. unfold has_slash in *.
  assert (Hl : list_ascii_of_string (org ++ "/" ++ country) =
               list_ascii_of_string org ++ "/"%char :: list_ascii_of_string country)
    by now rewrite list_ascii_of_string_app.
  destruct (rsplit2_cases (org ++ "/" ++ country) "/")
    as [[Hnot _]|[(x & y & Hxy & Hx & Hy & ->)|(x & y & z & Hxyz & Hy & Hz & _)]].
  - exfalso. apply Hnot. rewrite Hl. apply in_or_app. right. now left.
  - rewrite Hl in Hxy. symmetry in Hxy.
    destruct (last_sep_unique _ _ _ _ _ Hxy Hy Hc) as [-> ->].
    now rewrite !string_of_list_ascii_of_string.
  - rewrite Hl in Hxyz.
    change (x ++ "/"%char :: y ++ "/"%char :: z)
      with (x ++ ("/"%char :: y) ++ "/"%char :: z) in Hxyz.
    rewrite app_assoc in Hxyz. symmetry in Hxyz.
    destruct (last_sep_unique _ _ _ _ _ Hxyz Hz Hc) as [Hx _].
    exfalso. apply Ho. rewrite <- Hx. apply in_or_app. right. now left.
Qed.

Lemma rsplit2_of_three_parts (first org country : string) :
  ~ has_slash org -> ~ has_slash country ->
  PyStr.rsplit (first ++ "/" ++ org ++ "/" ++ country) "/" 2 =
  [first; org; country].
Proof.
  intros Ho Hc. unfold has_slash in *.
  assert (Hl : list_ascii_of_string (first ++ "/" ++ org ++ "/" ++ country) =
               (list_ascii_of_string first ++ "/"%char :: list_ascii_of_string org)
                 ++ "/"%char :: list_ascii_of_string country).
  { rewrite list_ascii_of_string_app. simpl.
    rewrite list_ascii_of_string_app. simpl. now rewrite <- app_assoc. }
  destruct (rsplit2_cases (first ++ "/" ++ org ++ "/" ++ country) "/")
    as [[Hnot _]|[(x & y & Hxy & Hx & Hy & _)|(x & y & z & Hxyz & Hy & Hz & ->)]].
  - exfalso. apply Hnot. rewrite Hl. apply in_or_app. right. now left.
  - rewrite Hl in Hxy. symmetry in Hxy.
    destruct (last_sep_unique _ _ _ _ _ Hxy Hy Hc) as [-> _].
    exfalso. apply Hx. apply in_or_app. right. now left.
  - rewrite Hl in Hxyz.
    change (x ++ "/"%char :: y ++ "/"%char :: z)
      with (x ++ ("/"%char :: y) ++ "/"%char :: z) in Hxyz.
    rewrite app_assoc in Hxyz. symmetry in Hxyz.
    destruct (last_sep_unique _ _ _ _ _ Hxyz Hz Hc) as [Hxy ->].
    destruct (last_sep_unique _ _ _ _ _ Hxy Hy Ho) as [-> ->].
    now rewrite !string_of_list_ascii_of_string.
Qed.

(** ** [pmid_to_funding]: the parts of a grant string *)

Lemma not_has_slash_string (cs : list ascii) :
  ~ In "/"%char cs -> ~ has_slash (string_of_list_ascii cs).
Proof.
  unfold has_slash. now rewrite list_ascii_of_string_of_list_ascii.
Qed.

(** X1: the segments kept from a grant string, put back together with the
    dropped country, give the grant string again; the organization and the
    country hold no '/', and no segment is kept exactly when the grant
    string has no '/'. *)
Theorem segments_rebuild (grant : string) :
  match segments_of grant with
  | [] => ~ has_slash grant
  | [org] =>
      exists country,
        grant = (org ++ "/" ++ country)%string /\
        ~ has_slash org /\ ~ has_slash country
  | [first; org] =>
      exists country,
        grant = (first ++ "/" ++ org ++ "/" ++ country)%string /\
        ~ has_slash org /\ ~ has_slash country
  | _ => False
  end.
Proof.
  unfold segments_of.
  destruct (rsplit2_cases grant "/")
    as [[Hnot ->]|[(a & b & Hab & Ha & Hb & ->)|(a & b & c & Habc & Hb & Hc & ->)]];
    cbn [removelast].
  - exact Hnot.
  - exists (string_of_list_ascii b). split; [|split].
    + rewrite (string_as_list _ _ Hab), string_of_list_ascii_app. reflexivity.
    + now apply not_has_slash_string.
    + now apply not_has_slash_string.
  - exists (string_of_list_ascii c). split; [|split].
    + rewrite (string_as_list _ _ Habc), string_of_list_ascii_app. simpl.
      rewrite string_of_list_ascii_app. reflexivity.
    + now apply not_has_slash_string.
    + now apply not_has_slash_string.
Qed.

(** With a '/' in the grant string both locals are assigned, whatever
    they held. *)
Lemma assign_with_slash (grant : string) :
  has_slash grant ->
  exists org i, forall st,
      assign st grant = {| organization := Some org; identifier := Some i |}.
Proof.
  intros Hslash. unfold assign, segments_of.
  destruct (rsplit2_cases grant "/")
    as [[Hnot _]|[(a & b & _ & _ & _ & ->)|(a & b & c & _ & _ & _ & ->)]].
  - contradiction.
  - eexists. eexists. intros st. reflexivity.
  - eexists. eexists. intros st. reflexivity.
Qed.

Lemma funding_step_with_slash (grant : string) :
  has_slash grant ->
  exists st' e, forall st, funding_step st grant = Ok (st', e).
Proof.
  intros Hslash. destruct (assign_with_slash grant Hslash) as (org & i & Ha).
  eexists. eexists. intros st. unfold funding_step. rewrite Ha. reflexivity.
Qed.

Lemma funding_loop_with_slashes (grants : list string) :
  Forall has_slash grants ->
  forall st funding,
  exists entries,
    funding_loop st funding grants = Ok (funding ++ entries) /\
    Forall2 (fun grant e => exists st', funding_step unbound grant = Ok (st', e))
            grants entries.
Proof.
  induction 1 as [|grant rest Hslash _ IH]; intros st funding.
  - exists []. split; [now rewrite app_nil_r|constructor].
  - destruct (funding_step_with_slash grant Hslash) as (st' & e & Hstep).
    destruct (IH st' (funding ++ [e])) as (entries & Hrun & Hall).
    exists (e :: entries). split.
    + simpl. rewrite Hstep. simpl. rewrite Hrun. now rewrite <- app_assoc.
    + constructor; [|exact Hall]. exists st'. apply Hstep.
Qed.

(** X2: when every selected grant string has a '/', the call returns, with
    one entry per grant string in their order, and each entry is the one
    its grant string gives on its own (nothing is carried over from the
    grant string before). *)
Theorem pmid_to_funding_with_slashes (sections : list section)
        (Hall : Forall has_slash (select_grants [] sections)) :
  exists funding,
    pmid_to_funding sections = Ok funding /\
    List.length funding = List.length (select_grants [] sections) /\
    Forall2 (fun grant e => exists st', funding_step unbound grant = Ok (st', e))
            (select_grants [] sections) funding.
Proof.
  destruct (funding_loop_with_slashes _ Hall unbound []) as (entries & Hrun & H2).
  exists entries. split; [exact Hrun|]. split; [|exact H2].
  symmetry. exact (Forall2_length H2).
Qed.

Lemma pmid_to_funding_with_slashes_witness :
  exists funding,
    pmid_to_funding
      [grant_support ["G0901149/Medical Research Council/United Kingdom";
                      "Wellcome Trust/United Kingdom"]] = Ok funding /\
    List.length funding = 2.
Proof.
  destruct (pmid_to_funding_with_slashes
              [grant_support ["G0901149/Medical Research Council/United Kingdom";
                              "Wellcome Trust/United Kingdom"]])
    as (funding & Hrun & Hlen & _).
  - repeat constructor; unfold has_slash; simpl; tauto.
  - exists funding. split; [exact Hrun|exact Hlen].
Defined.

(** X3: a grant string "organization/country" gives the organization
    alone: no "identifier" key, and [identifier] is left at [None]. *)
Theorem organization_only_entry (org country : string) (st : locals)
        (Horg : ~ has_slash org) (Hcountry : ~ has_slash country) :
  funding_step st (org ++ "/" ++ country) =
  Ok ({| organization := Some org; identifier := Some PNone |},
      PDict [funder_item org]).
Proof.
  unfold funding_step, assign, segments_of.
  now rewrite (rsplit2_of_two_parts _ _ Horg Hcountry).
Qed.

Lemma organization_only_entry_witness :
  funding_step unbound "Wellcome Trust/United Kingdom" =
  Ok ({| organization := Some "Wellcome Trust"; identifier := Some PNone |},
      PDict [funder_item "Wellcome Trust"]).
Proof.
  apply (organization_only_entry "Wellcome Trust" "United Kingdom" unbound);
    unfold has_slash; simpl; intuition discriminate.
Defined.

Lemma length_append (a b : string) :
  String.length (a ++ b) = String.length a + String.length b.
Proof. induction a as [|c a IH]; simpl; [reflexivity|now rewrite IH]. Qed.

Lemma substring_prefix (a b : string) :
  substring 0 (String.length a) (a ++ b) = a.
Proof.
  induction a as [|c a IH]; simpl.
  - now destruct b.
  - now rewrite IH.
Qed.

Lemma funding_entry_identifier (org id : string) :
  id <> "" ->
  funding_entry org (PStr id) = PDict [funder_item org; ("identifier", PStr id)].
Proof.
  intros Hne. unfold funding_entry, truthy.
  destruct (String.eqb_spec id ""); [contradiction|reflexivity].
Qed.

(** The iteration on a grant string with two '/' or more. *)
Lemma funding_step_two_segments (first org country : string) (st : locals) :
  ~ has_slash org -> ~ has_slash country ->
  let id := if has_abbreviation (PyStr.rsplit first "/" 1)
            then PyStr.drop_last 3 first else first in
  funding_step st (first ++ "/" ++ org ++ "/" ++ country) =
  Ok ({| organization := Some org; identifier := Some (PStr id) |},
      funding_entry org (PStr id)).
Proof.
  intros Horg Hcountry. cbv zeta. unfold funding_step, assign, segments_of.
  now rewrite (rsplit2_of_three_parts _ _ _ Horg Hcountry).
Qed.

(** X4: a grant string "identifier/organization/country" whose first part
    does not end in '/' and a two-character uppercase abbreviation keeps
    that first part whole as the identifier, '/' inside it included. *)
Theorem plain_identifier_entry (id org country : string) (st : locals)
        (Hplain : forall head tail,
            id = (head ++ "/" ++ tail)%string -> ~ has_slash tail ->
            String.length tail <> 2 \/ PyStr.isupper tail = false)
        (Hid : id <> "")
        (Horg : ~ has_slash org) (Hcountry : ~ has_slash country) :
  funding_step st (id ++ "/" ++ org ++ "/" ++ country) =
  Ok ({| organization := Some org; identifier := Some (PStr id) |},
      PDict [funder_item org; ("identifier", PStr id)]).
Proof.
  rewrite (funding_step_two_segments _ _ _ _ Horg Hcountry).
  assert (Hno : has_abbreviation (PyStr.rsplit id "/" 1) = false).
  { destruct (rsplit1_cases id "/") as [[_ ->]|(a & b & Hab & Hb & ->)].
    - reflexivity.
    - unfold has_abbreviation. cbn [last List.length Nat.eqb andb].
      destruct (Hplain (string_of_list_ascii a) (string_of_list_ascii b))
        as [Hlen|Hup].
      + rewrite (string_as_list _ _ Hab), string_of_list_ascii_app.
        reflexivity.
      + now apply not_has_slash_string.
      + apply Nat.eqb_neq in Hlen. now rewrite Hlen.
      + rewrite Hup. apply andb_false_r. }
  rewrite Hno. now rewrite (funding_entry_identifier _ _ Hid).
Qed.

Lemma plain_identifier_entry_witness :
  funding_step unbound "MC_UU_12010/10/Medical Research Council/United Kingdom" =
  Ok ({| organization := Some "Medical Research Council";
         identifier := Some (PStr "MC_UU_12010/10") |},
      PDict [funder_item "Medical Research Council";
             ("identifier", PStr "MC_UU_12010/10")]).
Proof.
  apply (plain_identifier_entry "MC_UU_12010/10" "Medical Research Council"
                                "United Kingdom" unbound).
  - intros head tail Heq Htail.
    pose proof (rsplit1_of_parts head tail Htail) as Hr.
    rewrite <- Heq in Hr. vm_compute in Hr.
    injection Hr as _ <-. right. reflexivity.
  - discriminate.
  - unfold has_slash. simpl. intuition discriminate.
  - unfold has_slash. simpl. intuition discriminate.
Defined.

(** X5: a grant string "identifier/XX/organization/country", XX being two
    characters that [isupper] accepts, loses "/XX": the identifier is what
    stands before it, whatever '/' it holds itself. *)
Theorem abbreviated_identifier_entry
        (id abbr org country : string) (st : locals)
        (Habbr : ~ has_slash abbr)
        (Hlen : String.length abbr = 2)
        (Hupper : PyStr.isupper abbr = true)
        (Hid : id <> "")
        (Horg : ~ has_slash org) (Hcountry : ~ has_slash country) :
  funding_step st (id ++ "/" ++ abbr ++ "/" ++ org ++ "/" ++ country) =
  Ok ({| organization := Some org; identifier := Some (PStr id) |},
      PDict [funder_item org; ("identifier", PStr id)]).
Proof.
  assert (Hg : (id ++ "/" ++ abbr ++ "/" ++ org ++ "/" ++ country)%string =
               ((id ++ "/" ++ abbr) ++ "/" ++ org ++ "/" ++ country)%string)
    by (rewrite append_assoc; reflexivity).
  rewrite Hg, (funding_step_two_segments _ _ _ _ Horg Hcountry).
  rewrite (rsplit1_of_parts _ _ Habbr).
  unfold has_abbreviation. cbn [last List.length Nat.eqb andb].
  rewrite Hlen, Hupper. cbn [Nat.eqb andb].
  assert (Hdrop : PyStr.drop_last 3 (id ++ "/" ++ abbr) = id).
  { unfold PyStr.drop_last. rewrite length_append. simpl String.length.
    rewrite Hlen. replace (String.length id + 3 - 3) with (String.length id)
      by lia.
    apply substring_prefix. }
  rewrite Hdrop. now rewrite (funding_entry_identifier _ _ Hid).
Qed.

Lemma abbreviated_identifier_entry_witness :
  funding_step unbound "R01 DK090554/DK/NIDDK NIH HHS/United States" =
  Ok ({| organization := Some "NIDDK NIH HHS";
         identifier := Some (PStr "R01 DK090554") |},
      PDict [funder_item "NIDDK NIH HHS"; ("identifier", PStr "R01 DK090554")]).
Proof.
  apply (abbreviated_identifier_entry "R01 DK090554" "DK" "NIDDK NIH HHS"
                                      "United States" unbound);
    try reflexivity; try discriminate;
    unfold has_slash; simpl; intuition discriminate.
Defined.

(** ** [pmid_to_funding]: the heading that counts *)

Lemma select_grants_app (before after : list section) : forall grants,
  select_grants grants (before ++ after) =
  select_grants (select_grants grants before) after.
Proof.
  induction before as [|s rest IH]; intros grants; simpl.
  - reflexivity.
  - destruct (PyStr.contains "Grant support" (get s)); apply IH.
Qed.

(** X6: of several headings that contain "Grant support" the last one
    counts: its links are the grant strings, whatever the earlier headings
    gave, and an empty list of links after it gives an empty result. *)
Theorem last_grant_support_heading
        (before after : list section) (s : section)
        (Hs : PyStr.contains "Grant support" (get s) = true)
        (Hafter : forall s', In s' after ->
                             PyStr.contains "Grant support" (get s') = false) :
  select_grants [] (before ++ s :: after) = following_links s /\
  pmid_to_funding (before ++ s :: after) = pmid_to_funding [s] /\
  (following_links s = [] -> pmid_to_funding (before ++ s :: after) = Ok []).
Proof.
  assert (Hsel : forall grants,
             select_grants grants (before ++ s :: after) = following_links s).
  { intros grants. rewrite select_grants_app. simpl. rewrite Hs.
    now apply select_grants_none. }
  split; [apply Hsel|]. split.
  - unfold pmid_to_funding. rewrite Hsel. simpl. now rewrite Hs.
  - intros Hempty. unfold pmid_to_funding. now rewrite Hsel, Hempty.
Qed.

Lemma last_grant_support_heading_witness :
  pmid_to_funding
    [ {| get := "<h4>Grant support</h4>";
         following_links := ["G0901149/MRC/United Kingdom"] |};
      {| get := "<h4>Grant support, other</h4>";
         following_links := ["Wellcome Trust/United Kingdom"] |};
      {| get := "<h4>Miscellaneous</h4>"; following_links := ["x"] |} ] =
  Ok [PDict [funder_item "Wellcome Trust"]].
Proof.
  refine (eq_trans (proj1 (proj2
    (last_grant_support_heading
       [ {| get := "<h4>Grant support</h4>";
            following_links := ["G0901149/MRC/United Kingdom"] |} ]
       [ {| get := "<h4>Miscellaneous</h4>"; following_links := ["x"] |} ]
       {| get := "<h4>Grant support, other</h4>";
          following_links := ["Wellcome Trust/United Kingdom"] |}
       eq_refl _))) _).
  - intros s' [<-|[]]. reflexivity.
  - reflexivity.
Defined.

(** ** Dicts: lookup after writing *)

Section DictLookup.
Context {V : Type}.
Implicit Types (d m : PyDict.t V) (k : string) (v : V).

Lemma get_set d k v k' :
  PyDict.get (PyDict.set d k v) k' =
  if String.eqb k k' then Some v else PyDict.get d k'.
Proof.
  induction d as [|[k0 v0] tl IH]; simpl.
  - reflexivity.
  - destruct (String.eqb_spec k0 k) as [->|Hne]; simpl.
    + now destruct (String.eqb k k').
    + rewrite IH. destruct (String.eqb_spec k0 k') as [->|Hne'].
      * destruct (String.eqb_spec k k') as [->|_]; [contradiction|reflexivity].
      * reflexivity.
Qed.

Lemma get_app d m k :
  PyDict.get (d ++ m) k =
  match PyDict.get d k with
  | Some v => Some v
  | None => PyDict.get m k
  end.
Proof.
  induction d as [|[k0 v0] tl IH]; simpl.
  - reflexivity.
  - now destruct (String.eqb k0 k).
Qed.

(** After [d.update(m)] a key holds what [m] wrote to it last, and what
    [d] held when [m] does not write it. *)
Lemma get_update m : forall d k,
  PyDict.get (PyDict.update d m) k =
  match PyDict.get (rev m) k with
  | Some v => Some v
  | None => PyDict.get d k
  end.
Proof.
  induction m as [|[k0 v0] tl IH]; intros d k.
  - reflexivity.
  - change (PyDict.update d ((k0, v0) :: tl))
      with (PyDict.update (PyDict.set d k0 v0) tl).
    rewrite IH. simpl rev. rewrite get_app, get_set. simpl.
    destruct (PyDict.get (rev tl) k); [reflexivity|].
    now destruct (String.eqb k0 k).
Qed.

Lemma get_None d k : PyDict.get d k = None <-> ~ In k (PyDict.keys d).
Proof.
  induction d as [|[k0 v0] tl IH]; simpl.
  - intuition.
  - destruct (String.eqb_spec k0 k) as [->|Hne].
    + split; [discriminate|]. intros H. exfalso. apply H. now left.
    + rewrite IH. intuition.
Qed.

Lemma get_Some_In d k v : PyDict.get d k = Some v -> In (k, v) d.
Proof.
  induction d as [|[k0 v0] tl IH]; simpl; [discriminate|].
  destruct (String.eqb_spec k0 k) as [->|Hne].
  - intros H. injection H as ->. now left.
  - intros H. right. now apply IH.
Qed.

(** The order of the items does not matter to a lookup. *)
Lemma get_Permutation d d' k :
  NoDup (PyDict.keys d) -> Permutation d d' ->
  PyDict.get d' k = PyDict.get d k.
Proof.
  intros Hnd Hperm.
  assert (Hnd' : NoDup (PyDict.keys d')).
  { eapply Permutation_NoDup; [|exact Hnd].
    unfold PyDict.keys. now apply Permutation_map. }
  destruct (PyDict.get d k) as [v|] eqn:E.
  - apply get_In; [exact Hnd'|].
    eapply Permutation_in; [exact Hperm|]. now apply get_Some_In.
  - apply get_None. apply get_None in E. intros Hin. apply E.
    eapply Permutation_in; [|exact Hin].
    unfold PyDict.keys. apply Permutation_map. now symmetry.
Qed.

Lemma keys_update m : forall d k,
  In k (PyDict.keys (PyDict.update d m)) <->
  In k (PyDict.keys d) \/ In k (PyDict.keys m).
Proof.
  induction m as [|[k0 v0] tl IH]; intros d k.
  - simpl. intuition.
  - change (PyDict.update d ((k0, v0) :: tl))
      with (PyDict.update (PyDict.set d k0 v0) tl).
    rewrite IH, keys_set. simpl. intuition.
Qed.
End DictLookup.

(** ** [transform]: what the output holds *)

Lemma transform_returns_update doc mappings ws :
  Forall2 (fun item w => written mappings item = Ok w) doc ws ->
  transform doc mappings =
    Ok (sorted (PyDict.update initial_doc (List.concat ws))) /\
  NoDup (PyDict.keys (PyDict.update initial_doc (List.concat ws))).
Proof.
  intros Hws. split.
  - unfold transform. now rewrite (transform_loop_written _ _ _ _ Hws).
  - apply NoDup_keys_update, initial_doc_NoDup.
Qed.

(** X7: the items of the record whose key the table does not have play no
    part: the call gives what it gives on the record without them, and on
    a record with no key of the table it gives the two constants. *)
Theorem transform_drops_unrecognized
        (doc : PyDict.t pyval) (mappings : PyDict.t mapping_entry) :
  transform doc mappings = transform (filter (recognized mappings) doc) mappings /\
  ((forall item, In item doc -> recognized mappings item = false) ->
   transform doc mappings = Ok initial_doc).
Proof.
  assert (Hloop : forall _doc,
             transform_loop mappings _doc doc =
             transform_loop mappings _doc (filter (recognized mappings) doc)).
  { induction doc as [|[key value] rest IH]; intros _doc; simpl.
    - reflexivity.
    - unfold recognized at 1. simpl.
      destruct (PyDict.get mappings key) as [e|] eqn:E; simpl.
      + rewrite E. destruct e as [name|f|]; simpl.
        * apply IH.
        * destruct (f value); simpl; [apply IH|reflexivity].
        * reflexivity.
      + apply IH. }
  split.
  - unfold transform. now rewrite Hloop.
  - intros Hnone. unfold transform. rewrite Hloop.
    replace (filter (recognized mappings) doc) with (@nil (string * pyval)).
    + reflexivity.
    + symmetry. clear Hloop. induction doc as [|item rest IH]; simpl.
      * reflexivity.
      * rewrite (Hnone item (or_introl eq_refl)).
        apply IH. intros i Hi. apply Hnone. now right.
Qed.

Lemma transform_drops_unrecognized_witness :
  transform [("title", PStr "A"); ("size", PStr "3")]
            [("name", MStr "title"); ("pmid", MOther)] = Ok initial_doc.
Proof.
  apply (proj2 (transform_drops_unrecognized _ _)).
  intros item [<-|[<-|[]]]; reflexivity.
Defined.

(** X8: when the call returns, the keys of the output are "@context",
    "@type" and the keys written for the items of the record, no other
    and each once. *)
Theorem transform_key_set
        (doc : PyDict.t pyval) (mappings : PyDict.t mapping_entry)
        (ws : list (PyDict.t pyval))
        (Hws : Forall2 (fun item w => written mappings item = Ok w) doc ws) :
  exists out,
    transform doc mappings = Ok out /\
    NoDup (PyDict.keys out) /\
    forall k, In k (PyDict.keys out) <->
              k = "@context" \/ k = "@type" \/
              In k (PyDict.keys (List.concat ws)).
Proof.
  destruct (transform_returns_update _ _ _ Hws) as [Hrun Hnd].
  exists (sorted (PyDict.update initial_doc (List.concat ws))).
  assert (Hperm : Permutation
                    (PyDict.keys (PyDict.update initial_doc (List.concat ws)))
                    (PyDict.keys (sorted (PyDict.update initial_doc
                                                        (List.concat ws))))).
  { unfold PyDict.keys, sorted. apply Permutation_map, ItemSort.Permuted_sort. }
  split; [exact Hrun|]. split.
  - eapply Permutation_NoDup; [exact Hperm|exact Hnd].
  - intros k. split.
    + intros Hin. apply (Permutation_in _ (Permutation_sym Hperm)) in Hin.
      apply keys_update in Hin. simpl in Hin. intuition.
    + intros Hin. apply (Permutation_in _ Hperm). apply keys_update.
      simpl. intuition.
Qed.

Lemma transform_key_set_witness :
  exists out,
    transform [("title", PStr "A"); ("pmid", PStr "1"); ("x", PNone)]
              [("title", MStr "name");
               ("pmid", MCallable (fun v => Ok [("citation", v); ("name", v)]))]
    = Ok out /\
    NoDup (PyDict.keys out) /\
    forall k, In k (PyDict.keys out) <->
              k = "@context" \/ k = "@type" \/
              In k ["name"; "citation"; "name"].
Proof.
  apply (transform_key_set
           [("title", PStr "A"); ("pmid", PStr "1"); ("x", PNone)]
           [("title", MStr "name");
            ("pmid", MCallable (fun v => Ok [("citation", v); ("name", v)]))]
           [[("name", PStr "A")];
            [("citation", PStr "1"); ("name", PStr "1")]; []]).
  repeat constructor.
Defined.

(** X9: when the call returns, a key of the output holds the value written
    to it last while the record was processed, and "@context" and "@type"
    hold their constants when nothing was written to them. *)
Theorem transform_last_write_wins
        (doc : PyDict.t pyval) (mappings : PyDict.t mapping_entry)
        (ws : list (PyDict.t pyval))
        (Hws : Forall2 (fun item w => written mappings item = Ok w) doc ws) :
  exists out,
    transform doc mappings = Ok out /\
    forall k,
      PyDict.get out k =
      match PyDict.get (rev (List.concat ws)) k with
      | Some v => Some v
      | None => PyDict.get initial_doc k
      end.
Proof.
  destruct (transform_returns_update _ _ _ Hws) as [Hrun Hnd].
  exists (sorted (PyDict.update initial_doc (List.concat ws))).
  split; [exact Hrun|]. intros k. unfold sorted.
  rewrite (get_Permutation _ _ k Hnd (ItemSort.Permuted_sort _)).
  apply get_update.
Qed.

Lemma transform_last_write_wins_witness :
  exists out,
    transform [("a", PStr "1"); ("b", PStr "2")]
              [("a", MStr "name"); ("b", MStr "name")] = Ok out /\
    PyDict.get out "name" = Some (PStr "2") /\
    PyDict.get out "@type" = Some (PStr "Dataset").
Proof.
  destruct (transform_last_write_wins
              [("a", PStr "1"); ("b", PStr "2")]
              [("a", MStr "name"); ("b", MStr "name")]
              [[("name", PStr "1")]; [("name", PStr "2")]])
    as (out & Hrun & Hget).
  - repeat constructor.
  - exists out. split; [exact Hrun|]. split.
    + rewrite Hget. reflexivity.
    + rewrite Hget. reflexivity.
Defined.

(** ** [transform]: the order of the record *)

Lemma key_lt_asym (a b : string) : key_lt a b -> key_lt b a -> False.
Proof.
  rewrite !ltb_lt. intros Hab Hba.
  apply (String_as_OT.lt_not_eq a a); [|reflexivity].
  eapply String_as_OT.lt_trans; eassumption.
Qed.

Lemma StronglySorted_items (l : PyDict.t pyval) :
  StronglySorted key_lt (PyDict.keys l) -> StronglySorted item_lt l.
Proof.
  induction l as [|x l IH]; intros Hs; constructor; simpl in Hs;
    inversion Hs as [|? ? Hl Hall]; subst.
  - now apply IH.
  - rewrite Forall_forall in *. intros y Hy. apply Hall.
    unfold PyDict.keys. now apply in_map.
Qed.

(** Two lists in strict order with the same items are the same list. *)
Lemma sorted_unique (l1 : PyDict.t pyval) : forall l2,
  StronglySorted item_lt l1 -> StronglySorted item_lt l2 ->
  Permutation l1 l2 -> l1 = l2.
Proof.
  induction l1 as [|x t1 IH]; intros l2 H1 H2 Hperm.
  - apply Permutation_nil in Hperm. now subst.
  - destruct l2 as [|y t2].
    + apply Permutation_sym, Permutation_nil in Hperm. discriminate.
    + inversion H1 as [|? ? Ht1 Hx]; subst.
      inversion H2 as [|? ? Ht2 Hy]; subst.
      rewrite Forall_forall in Hx, Hy.
      assert (Hxy : x = y).
      { assert (Hin1 : In x (y :: t2))
          by (eapply Permutation_in; [exact Hperm|now left]).
        assert (Hin2 : In y (x :: t1))
          by (eapply Permutation_in; [exact (Permutation_sym Hperm)|now left]).
        destruct Hin1 as [->|Hin1]; [reflexivity|].
        destruct Hin2 as [->|Hin2]; [reflexivity|].
        exfalso. exact (key_lt_asym _ _ (Hx _ Hin2) (Hy _ Hin1)). }
      subst y. f_equal. apply IH; try assumption.
      eapply Permutation_cons_inv. exact Hperm.
Qed.

Lemma sorted_Permutation (l1 l2 : PyDict.t pyval) :
  NoDup (PyDict.keys l1) -> Permutation l1 l2 -> sorted l1 = sorted l2.
Proof.
  intros Hnd Hperm.
  assert (Hnd2 : NoDup (PyDict.keys l2)).
  { eapply Permutation_NoDup; [|exact Hnd].
    unfold PyDict.keys. now apply Permutation_map. }
  apply sorted_unique.
  - now apply StronglySorted_items, sorted_keys.
  - now apply StronglySorted_items, sorted_keys.
  - unfold sorted.
    eapply Permutation_trans; [apply Permutation_sym, ItemSort.Permuted_sort|].
    eapply Permutation_trans; [exact Hperm|apply ItemSort.Permuted_sort].
Qed.

Lemma concat_Permutation (ws ws' : list (PyDict.t pyval)) :
  Permutation ws ws' -> Permutation (List.concat ws) (List.concat ws').
Proof.
  induction 1 as [|w l l' _ IH|w1 w2 l|l l' l'' _ IH1 _ IH2]; simpl.
  - constructor.
  - now apply Permutation_app_head.
  - rewrite !app_assoc. apply Permutation_app_tail, Permutation_app_comm.
  - eapply Permutation_trans; eassumption.
Qed.

(** X10: when the keys written for a record differ pairwise and from
    "@context" and "@type", the output does not depend on the order of the
    items of the record. *)
Theorem transform_order_independent
        (doc doc' : PyDict.t pyval) (mappings : PyDict.t mapping_entry)
        (ws : list (PyDict.t pyval))
        (Hperm : Permutation doc doc')
        (Hws : Forall2 (fun item w => written mappings item = Ok w) doc ws)
        (Hfresh : NoDup ("@context" :: "@type"
                           :: PyDict.keys (List.concat ws))) :
  transform doc' mappings = transform doc mappings /\
  exists out, transform doc mappings = Ok out.
Proof.
  destruct (Permutation_Forall2 Hperm Hws) as (ws' & Hpw & Hws').
  pose proof (concat_Permutation _ _ Hpw) as Hpc.
  assert (Hnd : NoDup (PyDict.keys (initial_doc ++ List.concat ws))).
  { unfold PyDict.keys. rewrite map_app. exact Hfresh. }
  assert (Hnd' : NoDup (PyDict.keys (initial_doc ++ List.concat ws'))).
  { eapply Permutation_NoDup; [|exact Hnd].
    unfold PyDict.keys. apply Permutation_map.
    now apply Permutation_app_head. }
  destruct (transform_returns_update _ _ _ Hws) as [Hrun _].
  destruct (transform_returns_update _ _ _ Hws') as [Hrun' _].
  rewrite update_fresh in Hrun
    by (unfold PyDict.keys in *; now rewrite <- map_app).
  rewrite update_fresh in Hrun'
    by (unfold PyDict.keys in *; now rewrite <- map_app).
  split; [|eexists; exact Hrun].
  rewrite Hrun, Hrun'. f_equal. symmetry.
  apply sorted_Permutation; [exact Hnd|].
  now apply Permutation_app_head.
Qed.

Lemma transform_order_independent_witness :
  transform [("pmid", PStr "1"); ("x", PNone); ("title", PStr "A")]
            [("title", MStr "name"); ("pmid", MStr "identifier")] =
  transform [("title", PStr "A"); ("pmid", PStr "1"); ("x", PNone)]
            [("title", MStr "name"); ("pmid", MStr "identifier")].
Proof.
  refine (proj1 (transform_order_independent
            [("title", PStr "A"); ("pmid", PStr "1"); ("x", PNone)]
            [("pmid", PStr "1"); ("x", PNone); ("title", PStr "A")]
            [("title", MStr "name"); ("pmid", MStr "identifier")]
            [[("name", PStr "A")]; [("identifier", PStr "1")]; []] _ _ _)).
  - change [("pmid", PStr "1"); ("x", PNone); ("title", PStr "A")]
      with ([("pmid", PStr "1"); ("x", PNone)] ++ [("title", PStr "A")]).
    apply Permutation_cons_append.
  - repeat constructor.
  - repeat constructor; simpl; intuition discriminate.
Defined.

(** X11: what a callable of the table raises ends the call as it is, when
    the loop reaches the key; nothing is returned. *)
Theorem callable_error_propagates
        (mappings : PyDict.t mapping_entry)
        (before after : list (string * pyval)) (key : string) (value : pyval)
        (f : pyval -> result (PyDict.t pyval)) (e : exn) (_doc : PyDict.t pyval)
        (Hentry : PyDict.get mappings key = Some (MCallable f))
        (Hraise : f value = Raise e)
        (Hbefore : transform_loop mappings initial_doc before = Ok _doc) :
  transform (before ++ (key, value) :: after) mappings = Raise e.
Proof.
  unfold transform. rewrite transform_loop_app, Hbefore. cbn [bind].
  simpl. now rewrite Hentry, Hraise.
Qed.

Lemma callable_error_propagates_witness :
  transform [("title", PStr "A"); ("pmid", PStr "x"); ("size", PNone)]
            [("title", MStr "name");
             ("pmid", MCallable (fun _ => Raise (OtherError "ConnectionError")));
             ("size", MOther)] =
  Raise (OtherError "ConnectionError").
Proof.
  apply (callable_error_propagates
           [("title", MStr "name");
            ("pmid", MCallable (fun _ => Raise (OtherError "ConnectionError")));
            ("size", MOther)]
           [("title", PStr "A")] [("size", PNone)] "pmid" (PStr "x")
           (fun _ => Raise (OtherError "ConnectionError"))
           (OtherError "ConnectionError")
           [("@context", PStr "http://schema.org/"); ("@type", PStr "Dataset");
            ("name", PStr "A")]);
    reflexivity.
Defined.

(** ** [pmid_with_eutils]: how the call ends *)

Lemma author_name_ok (a : element) :
  has_names a = true -> exists n, author_name a = Ok n.
Proof.
  unfold has_names, author_name.
  destruct (find a "LastName"); [|discriminate].
  destruct (find a "Initials"); [|discriminate].
  intros _. eexists. reflexivity.
Qed.

Lemma author_name_fails (a : element) :
  has_names a = false -> author_name a = Raise no_text_attribute.
Proof.
  unfold has_names, author_name.
  destruct (find a "LastName"); [|reflexivity].
  destruct (find a "Initials"); [discriminate|reflexivity].
Qed.

Lemma authors_loop_ok (elements : list element) :
  forallb has_names elements = true ->
  exists names, Forall2 (fun a n => author_name a = Ok n) elements names.
Proof.
  induction elements as [|a rest IH]; simpl; intros Hall.
  - exists []. constructor.
  - apply andb_true_iff in Hall. destruct Hall as [Ha Hrest].
    destruct (author_name_ok a Ha) as [n Hn].
    destruct (IH Hrest) as [names Hnames].
    exists (n :: names). now constructor.
Qed.

Lemma authors_loop_fails (elements : list element) : forall authors,
  forallb has_names elements = false ->
  authors_loop authors elements = Raise no_text_attribute.
Proof.
  induction elements as [|a rest IH]; simpl; intros authors Hall.
  - discriminate.
  - destruct (has_names a) eqn:Ha; simpl in Hall.
    + destruct (author_name_ok a Ha) as [n ->]. simpl. now apply IH.
    + now rewrite (author_name_fails a Ha).
Qed.

(** X12: the call returns exactly when the body parses, the root has a
    child element and every [Author] element below it has a [LastName] and
    an [Initials] child; it ends with the [AttributeError] of [None.text]
    exactly when the body parses, the root has a child and some [Author]
    lacks one of the two. *)
Theorem eutils_outcomes (fromstring : string -> option element) (body : string) :
  ((exists r, pmid_with_eutils fromstring body = Ok r) <->
   exists root,
     fromstring body = Some root /\ children root <> [] /\
     forallb has_names (findall_descendants root "Author") = true) /\
  (pmid_with_eutils fromstring body = Raise no_text_attribute <->
   exists root,
     fromstring body = Some root /\ children root <> [] /\
     forallb has_names (findall_descendants root "Author") = false).
Proof.
  unfold pmid_with_eutils.
  destruct (fromstring body) as [root|] eqn:Eparse.
  - unfold element_truthy.
    destruct (children root) as [|c cs] eqn:Ec; cbn [List.length Nat.eqb negb].
    + split; split.
      * intros [r Hr]. discriminate Hr.
      * intros (r & Hr & Hc & _). injection Hr as <-. congruence.
      * discriminate.
      * intros (r & Hr & Hc & _). injection Hr as <-. congruence.
    + destruct (forallb has_names (findall_descendants root "Author")) eqn:Ea.
      * destruct (authors_loop_ok _ Ea) as [names Hnames].
        rewrite (authors_loop_names _ _ [] Hnames). cbn [bind].
        split; split.
        -- intros _. exists root. rewrite Ec. repeat split; congruence.
        -- intros _. eexists. reflexivity.
        -- discriminate.
        -- intros (r & Hr & _ & Hf). injection Hr as <-. congruence.
      * rewrite (authors_loop_fails _ [] Ea). cbn [bind].
        split; split.
        -- intros [r Hr]. discriminate Hr.
        -- intros (r & Hr & _ & Hf). injection Hr as <-. congruence.
        -- intros _. exists root. rewrite Ec. repeat split; congruence.
        -- reflexivity.
  - split; split.
    + intros [r Hr]. discriminate Hr.
    + intros (r & Hr & _). discriminate Hr.
    + discriminate.
    + intros (r & Hr & _). discriminate Hr.
Qed.

Lemma eutils_outcomes_witness :
  (exists r, pmid_with_eutils (fun _ => Some six_authors) "" = Ok r) /\
  pmid_with_eutils
    (fun _ => Some (Element "PubmedArticleSet" None
                      [author_element "Doe" "J";
                       Element "Author" None
                         [Element "CollectiveName" (Some "WHO") []]])) "" =
  Raise no_text_attribute.
Proof.
  split.
  - apply (proj1 (eutils_outcomes (fun _ => Some six_authors) "")).
    exists six_authors. repeat split; try reflexivity; discriminate.
  - apply (proj2 (eutils_outcomes _ "")).
    eexists. repeat split; try reflexivity; discriminate.
Defined.

(** ** [pmid_with_eutils]: where the elements are looked for *)

Lemma below_descendants (d e : element) :
  In d (below e) <-> descendant_of d e.
Proof.
  split.
  - revert d. induction e as [t x cs IH] using element_tree_ind.
    intros d Hin. simpl in Hin. apply in_flat_map in Hin.
    destruct Hin as (c & Hc & [<-|Hd]).
    + now apply descendant_child.
    + rewrite Forall_forall in IH.
      apply (descendant_below d c); [exact Hc|]. now apply IH.
  - induction 1 as [d e Hin|d c e Hin _ IH].
    + destruct e as [t x cs]. simpl in *. apply in_flat_map.
      exists d. split; [exact Hin|now left].
    + destruct e as [t x cs]. simpl in *. apply in_flat_map.
      exists c. split; [exact Hin|now right].
Qed.

(** X13: when the call returns, its grants are the entries of the [Grant]
    elements found at any depth below the root (a [Grant] inside a
    [Grant] too, the root itself never) that have an [Agency] or a
    [GrantID] child: no entry comes from elsewhere and none is missed. *)
Theorem grants_from_any_depth
        (fromstring : string -> option element) (body : string)
        (root : element) (grants : list pyval) (citation : string)
        (Hparse : fromstring body = Some root)
        (Hrun : pmid_with_eutils fromstring body = Ok (grants, citation)) :
  forall entry,
    In entry grants <->
    exists g,
      descendant_of g root /\ tag g = "Grant" /\ has_field g = true /\
      entry = PDict (spec_grant_entry g).
Proof.
  assert (Hgrants : grants =
                    map (fun g => PDict (spec_grant_entry g))
                        (filter has_field (findall_descendants root "Grant"))).
  { unfold pmid_with_eutils in Hrun. rewrite Hparse in Hrun.
    destruct (negb (element_truthy root)); [discriminate|].
    destruct (authors_loop [] (findall_descendants root "Author"));
      cbn [bind] in Hrun; [|discriminate].
    injection Hrun as <- _. now rewrite grants_loop_entries. }
  subst grants. intros entry. rewrite in_map_iff. split.
  - intros (g & <- & Hg). apply filter_In in Hg. destruct Hg as [Hg Hfield].
    unfold findall_descendants in Hg. apply filter_In in Hg.
    destruct Hg as [Hbelow Htag]. exists g. repeat split.
    + now apply below_descendants.
    + now apply String.eqb_eq.
    + exact Hfield.
  - intros (g & Hdesc & Htag & Hfield & ->). exists g. split; [reflexivity|].
    apply filter_In. split; [|exact Hfield].
    unfold findall_descendants. apply filter_In. split.
    + now apply below_descendants.
    + now apply String.eqb_eq.
Qed.

Lemma grants_from_any_depth_witness :
  In (PDict [("identifier", PStr "R01")])
     [PDict [("funder", PDict [("@type", PStr "Organization");
                               ("name", PStr "NIH")])];
      PDict [("identifier", PStr "R01")]].
Proof.
  apply (proj2 (grants_from_any_depth (fun _ => Some nested_grant) ""
                                      nested_grant _ "" eq_refl eq_refl _)).
  exists (Element "Grant" None [Element "GrantID" (Some "R01") []]).
  repeat split.
  apply (descendant_below _
           (Element "Grant" None
              [Element "Agency" (Some "NIH") [];
               Element "Grant" None [Element "GrantID" (Some "R01") []]])).
  - simpl. now left.
  - apply descendant_child. simpl. right. now left.
Defined.

(** ** [pmid_with_eutils]: the citation *)

Lemma find_path_without_start (root : element) (p : path) :
  findall_descendants root (descendant p) = [] -> find_path root p = None.
Proof.
  intros Hnone. unfold find_path, findall_path. rewrite Hnone.
  induction (steps p) as [|name rest IH]; simpl; [reflexivity|exact IH].
Qed.

(** X14: for a document without a [MedlineCitation] element below the
    root no feature is found, and the citation is the author segment and
    nothing more. *)
Theorem citation_without_medline
        (fromstring : string -> option element) (body : string)
        (root : element) (names : list string)
        (Hparse : fromstring body = Some root)
        (Hroot : element_truthy root = true)
        (Hnames : Forall2 (fun a n => author_name a = Ok n)
                          (findall_descendants root "Author") names)
        (Hnone : findall_descendants root "MedlineCitation" = []) :
  exists grants,
    pmid_with_eutils fromstring body = Ok (grants, author_string names).
Proof.
  eexists. rewrite (pmid_with_eutils_returns _ _ _ _ Hparse Hroot Hnames).
  do 2 f_equal.
  assert (Hf : features_loop root "" = "").
  { unfold features_loop, features. cbn [fold_left fst snd].
    rewrite !find_path_without_start by exact Hnone. reflexivity. }
  rewrite Hf. apply append_empty_r.
Qed.

Lemma citation_without_medline_witness :
  exists grants,
    pmid_with_eutils (fun _ => Some six_authors) "" =
    Ok (grants, "A X, B Y, C Z, D W et al. ").
Proof.
  apply (citation_without_medline (fun _ => Some six_authors) "" six_authors
                                  ["A X"; "B Y"; "C Z"; "D W"; "E V"; "F U"]
                                  eq_refl eq_refl).
  - repeat constructor.
  - reflexivity.
Defined.

(** X15: past the fourth author the names do not show: with more than
    four names the author segment is that of the first four, whatever
    follows them. *)
Theorem author_string_first_four
        (first rest rest' : list string)
        (Hfour : List.length first = 4)
        (Hrest : rest <> []) (Hrest' : rest' <> []) :
  author_string (first ++ rest) = author_string (first ++ rest') /\
  author_string (first ++ rest) =
  (PyStr.join ", " first ++ " et al. ")%string.
Proof.
  destruct first as [|a [|b [|c [|d [|e tl]]]]]; try discriminate Hfour.
  destruct rest as [|r rest]; [contradiction|].
  destruct rest' as [|r' rest']; [contradiction|].
  split; reflexivity.
Qed.

Lemma author_string_first_four_witness :
  author_string ["A X"; "B Y"; "C Z"; "D W"; "E V"] =
  author_string ["A X"; "B Y"; "C Z"; "D W"; "F U"; "G T"].
Proof.
  apply (author_string_first_four ["A X"; "B Y"; "C Z"; "D W"]
                                  ["E V"] ["F U"; "G T"]);
    [reflexivity|discriminate|discriminate].
Defined.

(** ** [pmid_to_citation] *)

Lemma replace_char_get (old new : ascii) (s : string) : forall n,
  String.get n (replace_char old new s) =
  option_map (fun c => if Ascii.eqb c old then new else c) (String.get n s).
Proof.
  induction s as [|c tl IH]; intros n; simpl.
  - reflexivity.
  - destruct n as [|n]; [reflexivity|apply IH].
Qed.

Lemma replace_char_absent (old new : ascii) (s : string) :
  old <> new -> ~ In old (list_ascii_of_string (replace_char old new s)).
Proof.
  intros Hne. induction s as [|c tl IH]; simpl.
  - intros [].
  - intros [Heq|Hin]; [|now apply IH].
    destruct (Ascii.eqb c old) eqn:E.
    + now apply Hne.
    + subst c. now rewrite Ascii.eqb_refl in E.
Qed.

(** X16: the citation comes back with the same length and without any
    no-break space; at every place stands the character of the flattened
    text, or a space where that text has a no-break space. *)
Theorem pmid_to_citation_replaces (citation : string) :
  String.length (pmid_to_citation citation) = String.length citation /\
  ~ In nbsp (list_ascii_of_string (pmid_to_citation citation)) /\
  forall n,
    String.get n (pmid_to_citation citation) =
    option_map (fun c => if Ascii.eqb c nbsp then " "%char else c)
               (String.get n citation).
Proof.
  unfold pmid_to_citation. split; [|split].
  - induction citation as [|c tl IH]; simpl; [reflexivity|now rewrite IH].
  - apply replace_char_absent. discriminate.
  - apply replace_char_get.
Qed.

(** X17: a text without no-break space comes back as it is; the function
    applied to its own result changes nothing more, and it works on a
    text piece by piece. *)
Theorem pmid_to_citation_stable (citation : string) :
  (~ In nbsp (list_ascii_of_string citation) ->
   pmid_to_citation citation = citation) /\
  pmid_to_citation (pmid_to_citation citation) = pmid_to_citation citation /\
  (forall more,
      pmid_to_citation (citation ++ more) =
      (pmid_to_citation citation ++ pmid_to_citation more)%string).
Proof.
  unfold pmid_to_citation.
  assert (Hid : forall s, ~ In nbsp (list_ascii_of_string s) ->
                          replace_char nbsp " " s = s).
  { induction s as [|c tl IH]; simpl; intros Hnot; [reflexivity|].
    destruct (Ascii.eqb c nbsp) eqn:E.
    - apply Ascii.eqb_eq in E. exfalso. apply Hnot. now left.
    - rewrite IH; [reflexivity|]. intros Hin. apply Hnot. now right. }
  split; [apply Hid|]. split.
  - apply Hid. apply replace_char_absent. discriminate.
  - intros more. induction citation as [|c tl IH]; simpl;
      [reflexivity|now rewrite IH].
Qed.

Lemma pmid_to_citation_stable_witness :
  pmid_to_citation "Doe J. A title. J Exp Med 2010" =
  "Doe J. A title. J Exp Med 2010".
Proof.
  apply (proj1 (pmid_to_citation_stable "Doe J. A title. J Exp Med 2010")).
  simpl. intuition discriminate.
Defined.

(** ** [pmid_to_funding]: when the call returns *)

(** Both locals hold a value. *)
Lemma assign_keeps_bound (st : locals) (grant : string) :
  (exists org i, st = {| organization := Some org; identifier := Some i |}) ->
  exists org i,
    assign st grant = {| organization := Some org; identifier := Some i |}.
Proof.
  intros Hbound. unfold assign.
  destruct (Nat.eqb (List.length (segments_of grant)) 1); [eauto|].
  destruct (Nat.eqb (List.length (segments_of grant)) 2); [eauto|].
  exact Hbound.
Qed.

Lemma funding_step_bound (st : locals) (grant org : string) (i : pyval) :
  assign st grant = {| organization := Some org; identifier := Some i |} ->
  funding_step st grant = Ok (assign st grant, funding_entry org i).
Proof.
  intros Ha. unfold funding_step. rewrite Ha. reflexivity.
Qed.

Lemma funding_loop_bound (grants : list string) : forall st funding,
  (exists org i, st = {| organization := Some org; identifier := Some i |}) ->
  exists entries,
    funding_loop st funding grants = Ok (funding ++ entries) /\
    List.length entries = List.length grants.
Proof.
  induction grants as [|grant rest IH]; intros st funding Hbound.
  - exists []. split; [now rewrite app_nil_r|reflexivity].
  - destruct (assign_keeps_bound st grant Hbound) as (org & i & Ha).
    destruct (IH (assign st grant) (funding ++ [funding_entry org i]))
      as (entries & Hrun & Hlen).
    + rewrite Ha. eauto.
    + exists (funding_entry org i :: entries). split.
      * simpl. rewrite (funding_step_bound _ _ _ _ Ha). simpl.
        rewrite Hrun. now rewrite <- app_assoc.
      * simpl. now rewrite Hlen.
Qed.

(** X18: the call fails in one case only, a first grant string without
    '/', and then on the unbound [organization]; in every other case it
    returns one entry per grant string, also for later grant strings
    without '/'. *)
Theorem pmid_to_funding_first_grant (sections : list section) :
  match select_grants [] sections with
  | [] => pmid_to_funding sections = Ok []
  | first :: rest =>
      (has_slash first ->
       exists funding,
         pmid_to_funding sections = Ok funding /\
         List.length funding = S (List.length rest)) /\
      (~ has_slash first ->
       pmid_to_funding sections = Raise (UnboundLocalError "organization"))
  end.
Proof.
  unfold pmid_to_funding.
  destruct (select_grants [] sections) as [|first rest]; [reflexivity|].
  split.
  - intros Hslash.
    destruct (assign_with_slash first Hslash) as (org & i & Ha).
    destruct (funding_loop_bound rest (assign unbound first)
                                 [funding_entry org i])
      as (entries & Hrun & Hlen).
    + rewrite Ha. eauto.
    + exists (funding_entry org i :: entries). split.
      * simpl. rewrite (funding_step_bound _ _ _ _ (Ha unbound)). simpl.
        exact Hrun.
      * simpl. now rewrite Hlen.
  - intros Hnot. simpl. unfold funding_step.
    now rewrite (assign_without_slash _ _ Hnot).
Qed.

Lemma pmid_to_funding_first_grant_witness :
  exists funding,
    pmid_to_funding [grant_support ["G0901149/MRC/United Kingdom";
                                    "Wellcome Trust"; "x"]] = Ok funding /\
    List.length funding = 3.
Proof.
  apply (proj1 (pmid_to_funding_first_grant
                  [grant_support ["G0901149/MRC/United Kingdom";
                                  "Wellcome Trust"; "x"]])).
  unfold has_slash. simpl. tauto.
Defined.

(** ** [pmid_to_funding]: which heading matches *)

Lemma prefix_append (needle hay : string) :
  prefix needle hay = true <-> exists rest, hay = (needle ++ rest)%string.
Proof.
  revert hay. induction needle as [|c needle IH]; intros hay.
  - destruct hay; simpl; split; eauto.
  - destruct hay as [|c' hay]; simpl.
    + split; [discriminate|]. intros [rest H]. discriminate H.
    + destruct (ascii_dec c c') as [<-|Hne].
      * rewrite IH. split; intros [rest H].
        -- exists rest. now rewrite H.
        -- exists rest. now injection H.
      * split; [discriminate|]. intros [rest H]. injection H as H _.
        now contradiction Hne.
Qed.

Lemma contains_append (needle hay : string) :
  PyStr.contains needle hay = true <->
  exists before after, hay = (before ++ needle ++ after)%string.
Proof.
  induction hay as [|c hay IH].
  - cbn [PyStr.contains]. rewrite orb_false_r. split.
    + intros H. apply prefix_append in H. destruct H as [rest H].
      exists "", rest. exact H.
    + intros (before & after & H). destruct before; simpl in H.
      * apply prefix_append. now exists after.
      * discriminate H.
  - cbn [PyStr.contains]. rewrite orb_true_iff, IH. split.
    + intros [H|(before & after & H)].
      * apply prefix_append in H. destruct H as [rest H].
        exists "", rest. exact H.
      * exists (String c before), after. simpl. now rewrite H.
    + intros (before & after & H). destruct before as [|c' before].
      * left. apply prefix_append. now exists after.
      * right. simpl in H. injection H as _ H. now exists before, after.
Qed.

(** X19: a heading is taken for the grant heading exactly when its markup
    reads "Grant support" somewhere, with anything before and after; a
    single heading so marked hands over its links, any other heading
    changes nothing. *)
Theorem grant_heading_match (s : section) (grants : list string) :
  (PyStr.contains "Grant support" (get s) = true <->
   exists before after,
     get s = (before ++ "Grant support" ++ after)%string) /\
  ((exists before after,
       get s = (before ++ "Grant support" ++ after)%string) ->
   select_grants grants [s] = following_links s) /\
  (~ (exists before after,
         get s = (before ++ "Grant support" ++ after)%string) ->
   select_grants grants [s] = grants).
Proof.
  split; [apply contains_append|]. split.
  - intros H. apply contains_append in H. simpl. now rewrite H.
  - intros H. simpl.
    destruct (PyStr.contains "Grant support" (get s)) eqn:E; [|reflexivity].
    exfalso. apply H. now apply contains_append.
Qed.

Lemma grant_heading_match_witness :
  select_grants []
    [ {| get := "<h4 class=x>Grant support</h4>"; following_links := ["a/b"] |} ]
  = ["a/b"].
Proof.
  apply (proj1 (proj2 (grant_heading_match
    {| get := "<h4 class=x>Grant support</h4>"; following_links := ["a/b"] |}
    []))).
  exists "<h4 class=x>", "</h4>". reflexivity.
Defined.

Lemma segments_rebuild_witness :
  exists country,
    "MR/M00919X/1/Medical Research Council/United Kingdom" =
    ("MR/M00919X/1" ++ "/" ++ "Medical Research Council" ++ "/" ++ country)%string /\
    ~ has_slash "Medical Research Council" /\ ~ has_slash country.
Proof.
  exact (segments_rebuild "MR/M00919X/1/Medical Research Council/United Kingdom").
Defined.

Lemma pmid_to_citation_replaces_witness :
  String.length (pmid_to_citation (String nbsp "2010 Jan;12(3):45-67")) = 21 /\
  String.get 0 (pmid_to_citation (String nbsp "2010 Jan;12(3):45-67")) =
    Some " "%char.
Proof.
  destruct (pmid_to_citation_replaces (String nbsp "2010 Jan;12(3):45-67"))
    as (Hlen & _ & Hget).
  split; [rewrite Hlen|rewrite Hget]; reflexivity.
Defined.

(** ** [pmid_to_funding]: the identifier rule *)

(** [isupper] on some strings, the characters given by code point:
    U+00C9 is an uppercase letter, U+00E9 a lowercase one, digits and
    spaces have no case. *)
Lemma isupper_examples :
  PyStr.isupper "RR" = true /\
  PyStr.isupper "RR " = true /\
  PyStr.isupper "R1" = true /\
  PyStr.isupper "10" = false /\
  PyStr.isupper "" = false /\
  PyStr.isupper "Rr" = false /\
  PyStr.isupper (String (ascii_of_nat 201) (String (ascii_of_nat 201) "")) = true /\
  PyStr.isupper (String "A" (String (ascii_of_nat 233) "")) = false.
Proof. repeat split; reflexivity. Qed.

(** The grant string "X9/R1/Org/Country": the re-split of the first
    segment gives "X9" and "R1"; "R1" is not made of uppercase letters,
    yet [isupper] accepts it and the identifier is "X9". *)
Lemma digit_abbreviation_not_by_spec_rule :
  pmid_to_funding [grant_support ["X9/R1/Org/Country"]] =
    Ok [PDict [funder_item "Org"; ("identifier", PStr "X9")]] /\
  PyStr.rsplit "X9/R1" "/" 1 = ["X9"; "R1"] /\
  forallb PyStr.is_upper_char (list_ascii_of_string "R1") = false /\
  spec_identifier "X9/R1" = "X9/R1" /\
  ~ identifier_by_spec_rule "X9/R1/Org/Country".
Proof.
  repeat split; try reflexivity.
  intros Hstated.
  specialize (Hstated "X9/R1" "Org" eq_refl).
  vm_compute in Hstated. discriminate Hstated.
Qed.

(** C1, amended: the grant string "M01 RR000051-475611 /RR /NCRR NIH HHS
    /United States" gives the organization "NCRR NIH HHS " as it stands
    and, the last part "RR " of the re-split having three characters, the
    whole first segment as identifier.  For every grant string with two
    segments left, the identifier is the first segment without its last
    three characters, "/" and an abbreviation, exactly when the first
    segment ends in "/" and two characters that [isupper] accepts (no
    lowercase character, at least one uppercase one); otherwise it is the
    whole first segment. *)
Theorem grant_identifier_rule :
  (let grant := "M01 RR000051-475611 /RR /NCRR NIH HHS /United States" in
   let first := "M01 RR000051-475611 /RR " in
   segments_of grant = [first; "NCRR NIH HHS "] /\
   PyStr.rsplit first "/" 1 = ["M01 RR000051-475611 "; "RR "] /\
   pmid_to_funding [grant_support [grant]] =
     Ok [PDict [funder_item "NCRR NIH HHS "; ("identifier", PStr first)]]) /\
  (forall grant first org,
      segments_of grant = [first; org] ->
      exists id,
        (forall st,
            funding_step st grant =
            Ok ({| organization := Some org; identifier := Some (PStr id) |},
                funding_entry org (PStr id))) /\
        pmid_to_funding [grant_support [grant]] =
          Ok [funding_entry org (PStr id)] /\
        ((exists abbr,
             first = (id ++ "/" ++ abbr)%string /\ ~ has_slash abbr /\
             String.length abbr = 2 /\ PyStr.isupper abbr = true) \/
         (id = first /\
          forall head tail,
            first = (head ++ "/" ++ tail)%string -> ~ has_slash tail ->
            String.length tail <> 2 \/ PyStr.isupper tail = false))).
Proof.
  split; [cbv zeta; repeat split; vm_compute; reflexivity|].
  intros grant first org Hseg.
  set (id := if has_abbreviation (PyStr.rsplit first "/" 1)
             then PyStr.drop_last 3 first else first).
  assert (Hstep : forall st,
             funding_step st grant =
             Ok ({| organization := Some org; identifier := Some (PStr id) |},
                 funding_entry org (PStr id))).
  { intros st. unfold funding_step, assign. rewrite Hseg. reflexivity. }
  exists id. split; [exact Hstep|]. split.
  { unfold pmid_to_funding.
    change (select_grants [] [grant_support [grant]]) with [grant].
    cbn [funding_loop]. rewrite Hstep. reflexivity. }
  unfold id. clear Hstep id.
  destruct (rsplit1_cases first "/") as [[Hnot ->]|(a & b & Hab & Hb & ->)].
  - right. split; [reflexivity|].
    intros head tail Heq _. exfalso. apply Hnot. rewrite Heq.
    rewrite list_ascii_of_string_app. apply in_or_app. right. now left.
  - assert (Hfirst : first =
                     (string_of_list_ascii a ++ "/" ++ string_of_list_ascii b)%string).
    { rewrite (string_as_list _ _ Hab), string_of_list_ascii_app. reflexivity. }
    unfold has_abbreviation. cbn [last List.length Nat.eqb andb].
    destruct (Nat.eqb (String.length (string_of_list_ascii b)) 2) eqn:Elen;
      cbn [andb].
    + destruct (PyStr.isupper (string_of_list_ascii b)) eqn:Eup.
      * left. apply Nat.eqb_eq in Elen.
        assert (Hdrop : PyStr.drop_last 3 first = string_of_list_ascii a).
        { rewrite Hfirst. unfold PyStr.drop_last. rewrite length_append.
          simpl String.length. rewrite Elen.
          replace (String.length (string_of_list_ascii a) + 3 - 3)
            with (String.length (string_of_list_ascii a)) by lia.
          apply substring_prefix. }
        rewrite Hdrop. exists (string_of_list_ascii b).
        repeat split; try assumption. now apply not_has_slash_string.
      * right. split; [reflexivity|]. intros head tail Heq Htail.
        rewrite Heq in Hab. rewrite list_ascii_of_string_app in Hab.
        simpl in Hab.
        destruct (last_sep_unique _ _ _ _ _ Hab Htail Hb) as [_ Hb'].
        apply string_as_list in Hb'. subst tail. now right.
    + right. split; [reflexivity|]. intros head tail Heq Htail.
      rewrite Heq in Hab. rewrite list_ascii_of_string_app in Hab.
      simpl in Hab.
      destruct (last_sep_unique _ _ _ _ _ Hab Htail Hb) as [_ Hb'].
      apply string_as_list in Hb'. subst tail. left.
      now apply Nat.eqb_neq.
Qed.

Lemma grant_identifier_rule_witness :
  pmid_to_funding
    [grant_support ["R01 DK090554/DK/NIDDK NIH HHS /United States"]] =
  Ok [PDict [funder_item "NIDDK NIH HHS ";
             ("identifier", PStr "R01 DK090554")]].
Proof.
  destruct (proj2 grant_identifier_rule
                  "R01 DK090554/DK/NIDDK NIH HHS /United States"
                  "R01 DK090554/DK" "NIDDK NIH HHS " eq_refl)
    as (id & _ & Hrun & [(abbr & Hfirst & Habbr & _ & _)|[_ Hwhole]]).
  - pose proof (rsplit1_of_parts id abbr Habbr) as Hsplit.
    rewrite <- Hfirst in Hsplit. vm_compute in Hsplit.
    injection Hsplit as <- _. exact Hrun.
  - exfalso.
    destruct (Hwhole "R01 DK090554" "DK" eq_refl) as [Hlen|Hup].
    + unfold has_slash. simpl. intuition discriminate.
    + now apply Hlen.
    + discriminate Hup.
Defined.
